(** * World Bank document downloader: a shallow embedding of [wb_downloader.py]

    The development follows the class [WorldBankDownloader]: text helpers
    ([slug]), the WDS client ([call_wds_api], [get_project_documents]), the
    classifier ([detect_document_type], [filter_documents]), the selection
    policy ([select_documents_by_language], [select_latest_documents]), the
    downloader ([download_pdf]) and the per-project driver
    ([process_project]).

    Python values are represented as follows.
    - A [str] is the list of its code points ([N]).
    - The Unicode tables of the Python runtime ([str.lower], NFKD, the
      classes [\w] and [\s] of [re], case-insensitive matching) are the
      fields of the class [Unicode]; the instance [ascii_tables] is exact on
      ASCII text and is used to evaluate closed examples.
    - A document record (a JSON object of the WDS API) is the record [doc]
      of the keys the program reads, each one absent or a string; [docna]
      can also have the nested shape of the newer API.
    - [self.session], the file system, [self.manifest_data] and
      [self.stats] form the record [world], passed explicitly. *)

From Stdlib Require Import String Ascii ZArith NArith List Bool Lia.
From stdpp Require Import base option list gmap.
Import ListNotations.
Local Open Scope N_scope.

(** ** Strings *)

Abbreviation char := N (only parsing).
Abbreviation str := (list N) (only parsing).
Abbreviation bytes := (list N) (only parsing).

(** [u "text"] is the Python literal ['text']. *)
Definition u (s : string) : str :=
  List.map N_of_ascii (list_ascii_of_string s).

Definition hyphen : char := 45.

(** [needle in hay] for strings. *)
Fixpoint starts_with (needle hay : str) : bool :=
  match needle, hay with
  | [], _ => true
  | _ :: _, [] => false
  | a :: needle', b :: hay' => (a =? b) && starts_with needle' hay'
  end.

Fixpoint str_in (needle hay : str) : bool :=
  starts_with needle hay ||
  match hay with
  | [] => false
  | _ :: hay' => str_in needle hay'
  end.

(** [a < b] on strings: lexicographic on code points. *)
Fixpoint str_ltb (a b : str) : bool :=
  match a, b with
  | _, [] => false
  | [], _ :: _ => true
  | x :: a', y :: b' => (x <? y) || ((x =? y) && str_ltb a' b')
  end.

Definition str_eqb (a b : str) : bool := bool_decide (a = b).

(** [sep.join(parts)] *)
Fixpoint join (sep : str) (parts : list str) : str :=
  match parts with
  | [] => []
  | [p] => p
  | p :: rest => p ++ sep ++ join sep rest
  end.

(** [s.split(sep)[0]] for a one-character separator. *)
Fixpoint split_head (sep : char) (s : str) : str :=
  match s with
  | [] => []
  | c :: s' => if c =? sep then [] else c :: split_head sep s'
  end.

(** ** The Unicode tables of the runtime *)

Class Unicode := {
  str_lower : str -> str;          (* str.lower() *)
  normalize_nfkd : str -> str;     (* unicodedata.normalize('NFKD', .) *)
  is_word : char -> bool;          (* \w *)
  is_space : char -> bool;         (* \s *)
  eq_nocase : char -> char -> bool (* a pattern letter against a text
                                      character under re.IGNORECASE *)
}.

Module AsciiTables.

Definition lower_char (c : char) : char :=
  if (65 <=? c) && (c <=? 90) then c + 32 else c.

Definition lower (s : str) : str := List.map lower_char s.

Definition word (c : char) : bool :=
  ((48 <=? c) && (c <=? 57)) || ((65 <=? c) && (c <=? 90))
  || ((97 <=? c) && (c <=? 122)) || (c =? 95).

Definition space (c : char) : bool :=
  ((9 <=? c) && (c <=? 13)) || ((28 <=? c) && (c <=? 32)).

Definition nocase (p c : char) : bool := lower_char p =? lower_char c.

End AsciiTables.

(** Exact on strings of code points below 128. *)
Definition ascii_tables : Unicode := {|
  str_lower := AsciiTables.lower;
  normalize_nfkd := fun s => s;
  is_word := AsciiTables.word;
  is_space := AsciiTables.space;
  eq_nocase := AsciiTables.nocase
|}.

(** ** Regular expressions (the fragment of [re] the program uses) *)

Inductive regex :=
| Eps
| Chr (c : char)          (* a literal character *)
| Spc                     (* \s *)
| Bnd                     (* \b *)
| Seq (a b : regex)
| Alt (a b : regex)
| Star (a : regex).

Fixpoint Lit (s : str) : regex :=
  match s with
  | [] => Eps
  | c :: s' => Seq (Chr c) (Lit s')
  end.

Definition Plus (a : regex) : regex := Seq a (Star a).

Section Regex.
Context {U : Unicode}.

Definition word_opt (c : option char) : bool :=
  match c with Some c => is_word c | None => false end.

(** [\b] between the character before the position and the one after. *)
Definition at_boundary (prev : option char) (rest : str) : bool :=
  xorb (word_opt prev) (word_opt (head rest)).

(** Backtracking matcher in continuation-passing style: [rmatch r prev s k]
    holds when [r] matches a prefix of [s] (preceded by [prev]) and [k]
    accepts what follows. A starred expression iterates only while it
    consumes input. *)
Fixpoint rmatch (r : regex) (prev : option char) (s : str)
         (k : option char -> str -> bool) {struct r} : bool :=
  match r with
  | Eps => k prev s
  | Chr c =>
      match s with
      | x :: s' => eq_nocase c x && k (Some x) s'
      | [] => false
      end
  | Spc =>
      match s with
      | x :: s' => is_space x && k (Some x) s'
      | [] => false
      end
  | Bnd => at_boundary prev s && k prev s
  | Seq a b => rmatch a prev s (fun p t => rmatch b p t k)
  | Alt a b => rmatch a prev s k || rmatch b prev s k
  | Star a =>
      (fix iter (n : nat) (p : option char) (t : str) : bool :=
         k p t ||
         match n with
         | O => false
         | S n' =>
             rmatch a p t
               (fun p' t' => (length t' <? length t)%nat && iter n' p' t')
         end) (length s) prev s
  end.

Fixpoint search_from (r : regex) (prev : option char) (s : str) : bool :=
  rmatch r prev s (fun _ _ => true) ||
  match s with
  | [] => false
  | c :: s' => search_from r (Some c) s'
  end.

(** [pattern.search(s)] as a truth value, for a pattern compiled with
    [(?i)]. *)
Definition search (r : regex) (s : str) : bool := search_from r None s.

End Regex.

(** [self.pid_pattern]:
    (?i)\bproject information document\b|\bpid\b|pid\s*\/\s*isds|(concept|appraisal)\s*stage *)
Definition pid_pattern : regex :=
  Alt (Seq Bnd (Seq (Lit (u "project information document")) Bnd))
 (Alt (Seq Bnd (Seq (Lit (u "pid")) Bnd))
 (Alt (Seq (Lit (u "pid"))
        (Seq (Star Spc) (Seq (Chr 47) (Seq (Star Spc) (Lit (u "isds"))))))
      (Seq (Alt (Lit (u "concept")) (Lit (u "appraisal")))
        (Seq (Star Spc) (Lit (u "stage")))))).

(** [self.pad_pattern]:
    (?i)\b(project|program)\s+appraisal\s+document\b|\bpad\b *)
Definition pad_pattern : regex :=
  Alt (Seq Bnd
        (Seq (Alt (Lit (u "project")) (Lit (u "program")))
          (Seq (Plus Spc)
            (Seq (Lit (u "appraisal"))
              (Seq (Plus Spc) (Seq (Lit (u "document")) Bnd))))))
      (Seq Bnd (Seq (Lit (u "pad")) Bnd)).


(** ** Document records *)

Inductive doc_type := PID | PAD.

(** The value under ['docna']: a string (older responses) or a dictionary
    (newer responses).  Of the dictionary the program reads only
    [docna_field['0']['docna']]: [DocnaDict None] has no key ['0'],
    [DocnaDict (Some None)] has ['0'] without ['docna']. *)
Inductive docna_field :=
| DocnaStr (s : str)
| DocnaDict (inner : option (option str)).

Record doc := mkDoc {
  docty : option str;
  docna : option docna_field;
  docdt : option str;
  lang : option str;
  repnb : option str;
  url : option str;
  pdfurl : option str
}.

(** [d.get(key, dflt)] *)
Definition get {A} (field : option A) (dflt : A) : A :=
  match field with Some v => v | None => dflt end.

(** ** DocumentClassifier *)

Inductive pattern := PidPattern | PadPattern.
Inductive field := Docty | Docna.

Definition compiled (p : pattern) : regex :=
  match p with PidPattern => pid_pattern | PadPattern => pad_pattern end.

(** One call of [pattern.search] on a field. *)
Definition probe : Type := pattern * field.

Section Classifier.
Context {U : Unicode}.

(** A truth value together with the searches that were run to obtain it. *)
Definition probed : Type := bool * list probe.

Definition search_field (p : pattern) (f : field) (text : str) : probed :=
  (search (compiled p) text, [(p, f)]).

(** Python's [a or b]: [b] is evaluated only when [a] is false. *)
Definition or_else (a : probed) (b : unit -> probed) : probed :=
  if fst a then a
  else let r := b tt in (fst r, snd a ++ snd r).

Definition docty_text (d : doc) : str := str_lower (get (docty d) []).

Definition docna_text (d : doc) : str :=
  match get (docna d) (DocnaStr []) with
  | DocnaDict (Some (Some s)) => str_lower s
  | DocnaDict _ => []
  | DocnaStr s => str_lower s
  end.

(** [detect_document_type], with the list of searches it performs. *)
Definition detect_document_type_probes (d : doc)
  : option doc_type * list probe :=
  let docty := docty_text d in
  let docna := docna_text d in
  let pid := or_else (search_field PidPattern Docty docty)
               (fun _ => search_field PidPattern Docna docna) in
  if fst pid then (Some PID, snd pid)
  else
    let pad := or_else (search_field PadPattern Docty docty)
                 (fun _ => search_field PadPattern Docna docna) in
    if fst pad then (Some PAD, snd pid ++ snd pad)
    else (None, snd pid ++ snd pad).

Definition detect_document_type (d : doc) : option doc_type :=
  fst (detect_document_type_probes d).

(** [filtered = {'PID': [], 'PAD': []}] *)
Record filtered := mkFiltered {
  filtered_pid : list doc;
  filtered_pad : list doc
}.

Definition by_type (f : filtered) (t : doc_type) : list doc :=
  match t with PID => filtered_pid f | PAD => filtered_pad f end.

Definition filter_step (acc : filtered) (d : doc) : filtered :=
  match detect_document_type d with
  | Some PID => mkFiltered (filtered_pid acc ++ [d]) (filtered_pad acc)
  | Some PAD => mkFiltered (filtered_pid acc) (filtered_pad acc ++ [d])
  | None => acc
  end.

Definition filter_documents (docs : list doc) : filtered :=
  fold_left filter_step docs (mkFiltered [] []).

End Classifier.

(** ** The downloader object and the world it acts on *)

(** The fields of [self] fixed by [__init__]. *)
Record downloader := mkDownloader {
  out_dir : str;
  languages : str;
  latest_only : bool;
  dry_run : bool
}.

Inductive request :=
| ApiQuery (proid : str) (os : N)   (* GET base_url with 'rows': '200' *)
| FileGet (file_url : str).         (* GET of a document, stream=True *)

(** The dictionary returned by [response.json()], by the keys that
    [get_project_documents] looks at. *)
Inductive api_json :=
| JsonEmpty                                (* {} *)
| JsonResponse (docs : option (list doc))  (* 'response' present; its 'docs' *)
| JsonDocuments (vals : option (list doc)) (* 'documents' present; its values
                                              when it is a dictionary *)
| JsonOther.                               (* neither key *)

Record response := mkResponse {
  status_code : Z;
  json : api_json;            (* response.json() *)
  chunks : list bytes;        (* what response.iter_content yields ... *)
  stream_breaks : bool        (* ... before raising, if it raises *)
}.

Inductive get_outcome :=
| Raises                    (* requests.RequestException *)
| Responds (r : response).

Inductive status := Downloaded | SkippedExisting | DryRun | Failed.

Definition status_str (s : status) : str :=
  match s with
  | Downloaded => u "downloaded"
  | SkippedExisting => u "skipped_existing"
  | DryRun => u "dry_run"
  | Failed => u "failed"
  end.

Record manifest_row := mkRow {
  row_country : str;
  row_project_id : str;
  row_project_title : str;
  row_doc_type : doc_type;
  row_doc_date : str;
  row_repnb : str;
  row_language : str;
  row_source_url : str;
  row_pdf_url : str;
  row_saved_path : str;
  row_status : status;
  row_sha256 : str
}.

Record stats_t := mkStats {
  total_projects : N;
  projects_with_pid : N;
  projects_with_pad : N;
  downloads_successful : N;
  downloads_skipped : N;
  downloads_failed : N
}.

Record world := mkWorld {
  requests : list request;        (* every session.get so far, oldest first *)
  sleeps : list N;                (* every time.sleep so far, in seconds *)
  files : gmap (list N) (list N); (* regular files: path to contents *)
  manifest_data : list manifest_row;
  stats : stats_t
}.

Record project_summary := mkSummary {
  sum_country : str;
  sum_project_id : str;
  sum_project_title : str;
  has_pid : bool;
  has_pad : bool;
  pid_count : nat;
  pad_count : nat;
  pid_paths : str;
  pad_paths : str
}.

Definition log_request (r : request) (w : world) : world :=
  mkWorld (requests w ++ [r]) (sleeps w) (files w) (manifest_data w) (stats w).

Definition sleep (d : N) (w : world) : world :=
  mkWorld (requests w) (sleeps w ++ [d]) (files w) (manifest_data w) (stats w).

Definition write_file (p : str) (content : bytes) (w : world) : world :=
  mkWorld (requests w) (sleeps w) (<[p := content]> (files w))
          (manifest_data w) (stats w).

Definition append_manifest (r : manifest_row) (w : world) : world :=
  mkWorld (requests w) (sleeps w) (files w) (manifest_data w ++ [r]) (stats w).

Definition with_stats (f : stats_t -> stats_t) (w : world) : world :=
  mkWorld (requests w) (sleeps w) (files w) (manifest_data w) (f (stats w)).

Definition count_download (success : bool) (st : status) (s : stats_t)
  : stats_t :=
  match success, st with
  | true, Downloaded =>
      mkStats (total_projects s) (projects_with_pid s) (projects_with_pad s)
        (downloads_successful s + 1) (downloads_skipped s) (downloads_failed s)
  | true, SkippedExisting =>
      mkStats (total_projects s) (projects_with_pid s) (projects_with_pad s)
        (downloads_successful s) (downloads_skipped s + 1) (downloads_failed s)
  | _, _ =>
      mkStats (total_projects s) (projects_with_pid s) (projects_with_pad s)
        (downloads_successful s) (downloads_skipped s) (downloads_failed s + 1)
  end.

Definition count_types (pid pad : bool) (s : stats_t) : stats_t :=
  mkStats (total_projects s)
    (if pid then projects_with_pid s + 1 else projects_with_pid s)
    (if pad then projects_with_pad s + 1 else projects_with_pad s)
    (downloads_successful s) (downloads_skipped s) (downloads_failed s).

Definition count_project (s : stats_t) : stats_t :=
  mkStats (total_projects s + 1) (projects_with_pid s) (projects_with_pad s)
    (downloads_successful s) (downloads_skipped s) (downloads_failed s).

(** ** Text helpers: [slug] *)

Section Slug.
Context {U : Unicode}.

(** The characters kept by [re.sub(r'[^\w\s-]', '', .)]. *)
Definition slug_keeps (c : char) : bool :=
  is_word c || is_space c || (c =? hyphen).

(** The class [[-\s]]. *)
Definition slug_sep (c : char) : bool := (c =? hyphen) || is_space c.

(** [re.sub(r'[-\s]+', '-', s)]; [in_run] tells that the previous
    character belonged to the run being replaced. *)
Fixpoint sub_runs (in_run : bool) (s : str) : str :=
  match s with
  | [] => []
  | c :: s' =>
      if slug_sep c
      then if in_run then sub_runs true s' else hyphen :: sub_runs true s'
      else c :: sub_runs false s'
  end.

Fixpoint lstrip (c : char) (s : str) : str :=
  match s with
  | [] => []
  | x :: s' => if x =? c then lstrip c s' else s
  end.

Fixpoint rstrip (c : char) (s : str) : str :=
  match s with
  | [] => []
  | x :: s' =>
      match rstrip c s' with
      | [] => if x =? c then [] else [x]
      | r => x :: r
      end
  end.

Definition strip (c : char) (s : str) : str := rstrip c (lstrip c s).

Definition slug_max (max_length : nat) (text : str) : str :=
  let text := normalize_nfkd text in
  let text := List.filter slug_keeps (str_lower text) in
  let text := sub_runs false text in
  let text := strip hyphen text in
  if (max_length <? length text)%nat
  then rstrip hyphen (firstn max_length text)
  else text.

(** [slug(text)] with the default [max_length]. *)
Definition slug (text : str) : str := slug_max 120 text.

End Slug.

(** ** [hashlib.sha256]

    SHA-256 over a list of bytes, as [get_file_hash] obtains it from
    [hashlib] (reading the file in blocks and hashing their
    concatenation). *)

Module SHA256.

Definition w32 (x : N) : N := x mod 2 ^ 32.
Definition add32 (a b : N) : N := w32 (a + b).
Definition rotr (n x : N) : N :=
  N.lor (N.shiftr x n) (w32 (N.shiftl x (32 - n))).
Definition not32 (x : N) : N := N.lxor x (2 ^ 32 - 1).

Definition Ch (x y z : N) : N :=
  N.lxor (N.land x y) (N.land (not32 x) z).
Definition Maj (x y z : N) : N :=
  N.lxor (N.lxor (N.land x y) (N.land x z)) (N.land y z).
Definition Sigma0 (x : N) : N :=
  N.lxor (N.lxor (rotr 2 x) (rotr 13 x)) (rotr 22 x).
Definition Sigma1 (x : N) : N :=
  N.lxor (N.lxor (rotr 6 x) (rotr 11 x)) (rotr 25 x).
Definition sigma0 (x : N) : N :=
  N.lxor (N.lxor (rotr 7 x) (rotr 18 x)) (N.shiftr x 3).
Definition sigma1 (x : N) : N :=
  N.lxor (N.lxor (rotr 17 x) (rotr 19 x)) (N.shiftr x 10).

(** The round constants and the initial hash value are defined as in
    FIPS 180-4: the first 32 bits of the fractional parts of the cube roots
    of the first 64 primes, and of the square roots of the first 8. *)
Definition is_prime (n : N) : bool :=
  (1 <? n) &&
  forallb (fun d => (n <? d * d) || negb (n mod d =? 0))
          (List.map N.of_nat (seq 2 (N.to_nat (N.sqrt n)))).

Definition primes (count : nat) : list N :=
  firstn count (List.filter is_prime (List.map N.of_nat (seq 2 320))).

(** The integer cube root, one bit at a time from bit [bits - 1] down. *)
Fixpoint cube_root_bits (bits : nat) (n r : N) : N :=
  match bits with
  | O => r
  | S b =>
      let r' := r + 2 ^ N.of_nat b in
      cube_root_bits b n (if r' * r' * r' <=? n then r' else r)
  end.

Definition K : list N :=
  Eval vm_compute in
    List.map (fun p => w32 (cube_root_bits 36 (p * 2 ^ 96) 0)) (primes 64).

Definition H0 : list N :=
  Eval vm_compute in
    List.map (fun p => w32 (N.sqrt (p * 2 ^ 64))) (primes 8).

(** Big-endian bytes of [x], [n] of them. *)
Fixpoint be_bytes (n : nat) (x : N) : list N :=
  match n with
  | O => []
  | S n' => (N.shiftr x (8 * N.of_nat n')) mod 256 :: be_bytes n' x
  end.

Definition pad (msg : list N) : list N :=
  let len := N.of_nat (length msg) in
  let zeros := (64 - (len + 9) mod 64) mod 64 in
  msg ++ [0x80] ++ repeat 0 (N.to_nat zeros) ++ be_bytes 8 (8 * len).

Fixpoint be_words (bs : list N) : list N :=
  match bs with
  | a :: b :: c :: d :: rest =>
      (N.shiftl a 24 + N.shiftl b 16 + N.shiftl c 8 + d) :: be_words rest
  | _ => []
  end.

(** One round; [win] holds the sixteen schedule words from the current
    one on. *)
Definition round (st : list N * list N) (k : N) : list N * list N :=
  let '(v, win) := st in
  match v, win with
  | [a; b; c; d; e; f; g; h], wt :: _ =>
      let t1 := add32 (add32 (add32 (add32 h (Sigma1 e)) (Ch e f g)) k) wt in
      let t2 := add32 (Sigma0 a) (Maj a b c) in
      let next :=
        add32 (add32 (add32 (sigma1 (nth 14 win 0)) (nth 9 win 0))
                     (sigma0 (nth 1 win 0))) wt in
      ([add32 t1 t2; a; b; c; add32 d t1; e; f; g], tl win ++ [next])
  | _, _ => st
  end.

Definition compress (h : list N) (block : list N) : list N :=
  let '(v, _) := fold_left round K (h, block) in
  map (fun p => add32 (fst p) (snd p)) (combine h v).

Fixpoint blocks (n : nat) (ws : list N) : list (list N) :=
  match n with
  | O => []
  | S n' =>
      match ws with
      | [] => []
      | _ => firstn 16 ws :: blocks n' (skipn 16 ws)
      end
  end.

Definition digest (msg : list N) : list N :=
  let ws := be_words (pad msg) in
  flat_map (be_bytes 4) (fold_left compress (blocks (length ws) ws) H0).

Definition hex_digit (x : N) : N := if x <? 10 then 48 + x else 87 + x.

(** [hashlib.sha256(msg).hexdigest()] *)
Definition hexdigest (msg : list N) : list N :=
  flat_map (fun b => [hex_digit (b / 16); hex_digit (b mod 16)]) (digest msg).

End SHA256.

(** ** The program proper *)

Section WorldBankDownloader.
Context {U : Unicode}.

(** The remote side: what the [n]-th call of [self.session.get] produces
    for the request it is given. *)
Variable net : nat -> request -> get_outcome.

Variable self : downloader.

Definition session_get (r : request) (w : world) : get_outcome * world :=
  (net (length (requests w)) r, log_request r w).

(** *** APIClient *)

Definition max_retries : nat := 3.
Definition base_delay : N := 1.

(** The body of [for attempt in range(max_retries)] over the attempts
    still to be made, followed by the code after the loop. *)
Fixpoint call_wds_api_attempts (attempts : list nat) (project_id : str)
         (offset : N) (w : world) : api_json * world :=
  match attempts with
  | [] => (JsonEmpty, w)
  | attempt :: rest =>
      let '(outcome, w) := session_get (ApiQuery project_id offset) w in
      let delay := base_delay * 2 ^ N.of_nat attempt in
      match outcome with
      | Responds r =>
          if (status_code r =? 200)%Z then (json r, w)
          else if (status_code r =? 429)%Z then
            call_wds_api_attempts rest project_id offset (sleep delay w)
          else if (500 <=? status_code r)%Z then
            call_wds_api_attempts rest project_id offset (sleep delay w)
          else (JsonEmpty, w)
      | Raises =>
          call_wds_api_attempts rest project_id offset (sleep delay w)
      end
  end.

Definition call_wds_api (project_id : str) (offset : N) (w : world)
  : api_json * world :=
  call_wds_api_attempts (seq 0 max_retries) project_id offset w.

(** The list bound to [docs] in the loop body, or [None] where the body
    breaks before binding it. *)
Definition page_docs (response : api_json) : option (list doc) :=
  match response with
  | JsonEmpty => None
  | JsonResponse docs => Some (get docs [])
  | JsonDocuments vals => Some (get vals [])
  | JsonOther => None
  end.

(** The [while True] loop of [get_project_documents]; [None] when [fuel]
    iterations were not enough to leave it. *)
Fixpoint get_project_documents_from (fuel : nat) (project_id : str)
         (all_docs : list doc) (offset : N) (w : world)
  : option (list doc * world) :=
  match fuel with
  | O => None
  | S fuel =>
      let '(response, w) := call_wds_api project_id offset w in
      match page_docs response with
      | None => Some (all_docs, w)
      | Some [] => Some (all_docs, w)
      | Some docs =>
          let all_docs := all_docs ++ docs in
          let offset := offset + 200 in
          if (length docs <? 200)%nat then Some (all_docs, w)
          else get_project_documents_from fuel project_id all_docs offset w
      end
  end.

Definition get_project_documents (fuel : nat) (project_id : str)
           (w : world) : option (list doc * world) :=
  get_project_documents_from fuel project_id [] 0 w.

(** *** SelectionPolicy *)

Definition is_english (d : doc) : bool :=
  str_eqb (str_lower (get (lang d) [])) (u "en").

Definition select_documents_by_language (docs : list doc) : list doc :=
  if str_eqb (languages self) (u "all") then docs
  else
    let english_docs := List.filter is_english docs in
    match english_docs, docs with
    | _ :: _, _ => english_docs
    | [], first :: _ => [first]
    | [], [] => []
    end.

Definition lang_key (d : doc) : str := str_lower (get (lang d) (u "xx")).
Definition date_key (d : doc) : str := get (docdt d) (u "0000-00-00").

(** [by_lang[lang].append(doc)], creating the entry at the end of the
    dictionary when the key is new. *)
Fixpoint group_add (k : str) (d : doc) (by_lang : list (str * list doc))
  : list (str * list doc) :=
  match by_lang with
  | [] => [(k, [d])]
  | (k', ds) :: rest =>
      if str_eqb k' k then (k', ds ++ [d]) :: rest
      else (k', ds) :: group_add k d rest
  end.

Definition group_by_lang (docs : list doc) : list (str * list doc) :=
  fold_left (fun by_lang d => group_add (lang_key d) d by_lang) docs [].

(** [sorted(l, key=date_key, reverse=True)]: the stable sort into
    descending order (documents with equal keys keep their order). *)
Fixpoint insert_desc (x : doc) (l : list doc) : list doc :=
  match l with
  | [] => [x]
  | y :: l' =>
      if str_ltb (date_key x) (date_key y) then y :: insert_desc x l'
      else x :: l
  end.

Definition sorted_newest_first (l : list doc) : list doc :=
  foldr insert_desc [] l.

(** [latest_docs.append(sorted_docs[0])] for every group; no group of
    [by_lang] is empty, so the index is always in range. *)
Definition latest_of_groups (by_lang : list (str * list doc)) : list doc :=
  flat_map (fun g => match sorted_newest_first (snd g) with
                     | d :: _ => [d]
                     | [] => []
                     end) by_lang.

Definition select_latest_documents (docs : list doc) : list doc :=
  if negb (latest_only self) then docs
  else latest_of_groups (group_by_lang docs).

(** *** PathNamer *)

Definition doc_type_str (t : doc_type) : str :=
  match t with PID => u "PID" | PAD => u "PAD" end.

(** The name under which a document is reported and slugged. *)
Definition display_name (d : doc) : str :=
  match get (docna d) (DocnaStr (u "Unknown")) with
  | DocnaDict (Some (Some s)) => s
  | DocnaDict _ => u "Unknown"
  | DocnaStr s => s
  end.

Definition doc_date (d : doc) : str :=
  let doc_date := get (docdt d) (u "0000-00-00") in
  if str_in (u "T") doc_date then split_head 84 doc_date else doc_date.

Definition generate_filename (d : doc) (t : doc_type) : str :=
  doc_date d ++ u "_" ++ get (repnb d) (u "NO-REPNB") ++ u "_"
  ++ slug (display_name d) ++ u "_" ++ str_lower (get (lang d) (u "xx"))
  ++ u ".pdf".

(** [a / b] on paths, for relative [b]. *)
Definition path_join (a b : str) : str := a ++ u "/" ++ b.

Definition _get_document_path (d : doc) (t : doc_type)
           (project_id country project_name : str) : str :=
  let project_slug := slug project_name in
  let project_dir :=
    path_join (path_join (out_dir self) country)
              (project_id ++ u "_" ++ project_slug) in
  let type_dir := path_join project_dir (doc_type_str t) in
  path_join type_dir (generate_filename d t).

(** *** Downloader *)

Definition get_file_hash (file_path : str) (w : world) : str :=
  match files w !! file_path with
  | None => []
  | Some content => SHA256.hexdigest content
  end.

(** [response.raise_for_status()] raises on 4xx and 5xx. *)
Definition raise_for_status (r : response) : bool :=
  ((400 <=? status_code r) && (status_code r <? 600))%Z.

Definition download_pdf (url : str) (file_path : str) (w : world)
  : (bool * status * str) * world :=
  if dry_run self then ((true, DryRun, []), w)
  else if bool_decide (is_Some (files w !! file_path)) then
    ((true, SkippedExisting, get_file_hash file_path w), w)
  else
    let '(outcome, w) := session_get (FileGet url) w in
    match outcome with
    | Raises => ((false, Failed, []), w)
    | Responds r =>
        if raise_for_status r then ((false, Failed, []), w)
        else
          (* open(file_path, 'wb') and the chunks written before the
             stream ends or breaks *)
          let w := write_file file_path (concat (chunks r)) w in
          if stream_breaks r then ((false, Failed, []), w)
          else
            match files w !! file_path with
            | Some (_ :: _) =>
                ((true, Downloaded, get_file_hash file_path w), w)
            | _ => ((false, Failed, []), w)
            end
    end.

(** The URL that [_download_document] fetches, if it finds one. *)
Definition pdf_url_of (d : doc) : option str :=
  match pdfurl d with
  | Some (c :: s) => Some (c :: s)
  | _ =>
      match url d with
      | Some (c :: s) =>
          if str_in (u "pdf") (str_lower (c :: s)) then Some (c :: s)
          else None
      | _ => None
      end
  end.

Definition _download_document (d : doc) (t : doc_type)
           (project_id country project_name : str) (w : world)
  : (bool * status * str) * world :=
  let file_path := _get_document_path d t project_id country project_name in
  match pdf_url_of d with
  | None => ((false, Failed, []), w)
  | Some pdf_url =>
      let '((success, st, file_hash), w) := download_pdf pdf_url file_path w in
      let manifest_row :=
        mkRow country project_id project_name t (doc_date d)
              (get (repnb d) (u "NO-REPNB")) (get (lang d) (u "xx"))
              (get (url d) []) pdf_url file_path st file_hash in
      ((success, st, file_hash), append_manifest manifest_row w)
  end.

(** *** Orchestrator *)

Definition _create_project_summary (project_id country project_name : str)
           (has_pid has_pad : bool) (pid_count pad_count : nat)
           (pid_paths pad_paths : list str) : project_summary :=
  mkSummary country project_id project_name has_pid has_pad
            pid_count pad_count
            (join (u ";") pid_paths) (join (u ";") pad_paths).

(** The selection applied to the documents of one type. *)
Definition select (type_docs : list doc) : list doc :=
  let selected_docs := select_documents_by_language type_docs in
  if latest_only self then select_latest_documents selected_docs
  else selected_docs.

(** [for doc in selected_docs: ...]; returns the paths appended. *)
Fixpoint download_selected (selected_docs : list doc) (t : doc_type)
         (project_id country project_name : str) (w : world)
  : list str * world :=
  match selected_docs with
  | [] => ([], w)
  | d :: rest =>
      let '((success, st, _), w) :=
        _download_document d t project_id country project_name w in
      let w := with_stats (count_download success st) w in
      let p := _get_document_path d t project_id country project_name in
      let '(paths, w) :=
        download_selected rest t project_id country project_name w in
      (p :: paths, w)
  end.

(** One round of [for doc_type, type_docs in filtered_docs.items()]. *)
Definition process_type (fd : filtered) (t : doc_type)
           (project_id country project_name : str) (w : world)
  : list str * world :=
  match by_type fd t with
  | [] => ([], w)
  | type_docs =>
      download_selected (select type_docs) t project_id country project_name w
  end.

Definition process_project (fuel : nat)
           (project_id country project_name : str) (w : world)
  : option (project_summary * world) :=
  match get_project_documents fuel project_id w with
  | None => None
  | Some ([], w) =>
      Some (_create_project_summary project_id country project_name
              false false 0 0 [] [], w)
  | Some (docs, w) =>
      let filtered_docs := filter_documents docs in
      let '(pid_paths, w) :=
        process_type filtered_docs PID project_id country project_name w in
      let '(pad_paths, w) :=
        process_type filtered_docs PAD project_id country project_name w in
      let has_pid := (0 <? length (filtered_pid filtered_docs))%nat in
      let has_pad := (0 <? length (filtered_pad filtered_docs))%nat in
      let w := with_stats (count_types has_pid has_pad) w in
      Some (_create_project_summary project_id country project_name
              has_pid has_pad
              (length (filtered_pid filtered_docs))
              (length (filtered_pad filtered_docs))
              pid_paths pad_paths, w)
  end.

(** The loop of [run] over the rows of the project list, each given as
    (id, country, title) after [.strip()]; returns [summary_data].
    [process_project] as modelled raises nothing, so the [except] branch
    of the loop is not here; [run_projects_guarded] has it. *)
Fixpoint run_projects (fuel : nat) (projects : list (str * str * str))
         (w : world) : option (list project_summary * world) :=
  match projects with
  | [] => Some ([], w)
  | (project_id, country, project_name) :: rest =>
      match project_id with
      | [] => run_projects fuel rest w
      | _ =>
          match process_project fuel project_id country project_name w with
          | None => None
          | Some (summary, w) =>
              let w := with_stats count_project w in
              match run_projects fuel rest w with
              | None => None
              | Some (summary_data, w) => Some (summary :: summary_data, w)
              end
          end
      end
  end.

End WorldBankDownloader.

(** * Vocabulary of the statements *)

Section Vocabulary.
Context {U : Unicode}.

(** [detect_document_type] gives the document the type [t]. *)
Definition is_type (t : doc_type) (d : doc) : bool :=
  match detect_document_type d, t with
  | Some PID, PID | Some PAD, PAD => true
  | _, _ => false
  end.




End Vocabulary.

Section ClientVocabulary.

(** The records a page carries: none when the loop breaks on it. *)
Definition page_records (response : api_json) : list doc :=
  get (page_docs response) [].

(** The page requests of one pagination: offsets 0, 200, 400, ... *)
Definition paging_requests (project_id : str) (n : nat) : list request :=
  List.map (fun i => ApiQuery project_id (200 * N.of_nat i)) (seq 0 n).

(** Outcomes after which [call_wds_api] tries again: HTTP 429, a status of
    500 or more, or a transport failure. *)
Definition retryable (o : get_outcome) : bool :=
  match o with
  | Raises => true
  | Responds r => ((status_code r =? 429) || (500 <=? status_code r))%Z
  end.

(** The world once [reqs] were sent and [delays] slept, nothing else
    having changed. *)
Definition after (w : world) (reqs : list request) (delays : list N)
  : world :=
  mkWorld (requests w ++ reqs) (sleeps w ++ delays) (files w)
          (manifest_data w) (stats w).

(** [delay = base_delay * (2 ** attempt)] *)
Definition delay_of (attempt : nat) : N := base_delay * 2 ^ N.of_nat attempt.

(** The back-off delays of the successive attempts. *)
Definition backoff : list N := [1; 2; 4].

End ClientVocabulary.

(** ** Example scenarios *)

Module Examples.

Definition empty_stats : stats_t := mkStats 0 0 0 0 0 0.
Definition empty_world : world := mkWorld [] [] ∅ [] empty_stats.

Definition proid : str := u "P149286".


(** The type detected for a record with the given ['docty'] and ['docna']. *)
Definition detect_ascii (ty na : string) : option doc_type :=
  detect_document_type (U := ascii_tables)
    (mkDoc (Some (u ty)) (Some (DocnaStr (u na))) None None None None None).

Definition sample_doc : doc :=
  mkDoc (Some (u "Project Information Document"))
        (Some (DocnaStr (u "Water supply")))
        (Some (u "2020-01-01")) (Some (u "en")) (Some (u "R1"))
        (Some (u "http://x/doc")) (Some (u "http://x/doc.pdf")).

Definition ok_json (docs : list doc) : get_outcome :=
  Responds (mkResponse 200 (JsonResponse (Some docs)) [] false).

(** A mocked API answering its successive calls with pages of 200, 200
    and 47 records. *)
Definition three_pages : nat -> request -> get_outcome :=
  fun n _ =>
    match n with
    | 0%nat | 1%nat => ok_json (repeat sample_doc 200)
    | 2%nat => ok_json (repeat sample_doc 47)
    | _ => ok_json []
    end.

(** A mocked API that always answers HTTP 503. *)
Definition always_503 : nat -> request -> get_outcome :=
  fun _ _ => Responds (mkResponse 503 JsonEmpty [] false).

Definition english_mode : downloader :=
  mkDownloader (u "downloads") (u "en") false false.

End Examples.

Section DownloadVocabulary.
Variable net : nat -> request -> get_outcome.
Variable self : downloader.

(** Successive calls of [download_pdf] for one destination, one per URL
    of [urls]: their results and the final world. *)
Fixpoint download_again (urls : list str) (file_path : str) (w : world)
  : list (bool * status * str) * world :=
  match urls with
  | [] => ([], w)
  | url :: rest =>
      let '(res, w) := download_pdf net self url file_path w in
      let '(more, w) := download_again rest file_path w in
      (res :: more, w)
  end.

End DownloadVocabulary.

Module DownloadExamples.
Import Examples.

Definition dry_mode : downloader :=
  mkDownloader (u "downloads") (u "en") false true.

Definition stored_path : str := u "downloads/Kenya/P1_water/PID/x.pdf".
Definition pdf_bytes : bytes := u "%PDF-1.4".

(** A world in which the destination is already on disk. *)
Definition stored_world : world :=
  write_file stored_path pdf_bytes empty_world.

Definition file_url : str := u "http://x/doc.pdf".

(** A server that answers every request with HTTP 200 and no content. *)
Definition empty_200 : nat -> request -> get_outcome :=
  fun _ _ => Responds (mkResponse 200 JsonEmpty [] false).

End DownloadExamples.

Module SelectionExamples.

Definition doc_lang_date (l d : string) : doc :=
  mkDoc (Some (u "Project Appraisal Document"))
        (Some (DocnaStr (u "Appraisal")))
        (Some (u d)) (Some (u l)) (Some (u "R7"))
        (Some (u "http://x/doc")) (Some (u "http://x/doc.pdf")).

Definition german : doc := doc_lang_date "de" "2019-05-05".
Definition english_2020 : doc := doc_lang_date "en" "2020-01-01".
Definition english_2021 : doc := doc_lang_date "en" "2021-06-15".

Definition latest_mode : downloader :=
  mkDownloader (u "downloads") (u "en") true false.


End SelectionExamples.

(** Further documents for the selection steps: a tag in capitals, a third
    language, a record without [lang], and documents that differ in their
    report number only. *)
Module SelectionCases.
Import SelectionExamples.

Definition english_upper : doc := doc_lang_date "EN" "2018-03-03".
Definition french : doc := doc_lang_date "fr" "2017-07-07".
Definition german_2022 : doc := doc_lang_date "de" "2022-02-02".

Definition untagged : doc :=
  mkDoc (Some (u "Project Appraisal Document"))
        (Some (DocnaStr (u "Appraisal")))
        (Some (u "2016-01-01")) None (Some (u "R8"))
        (Some (u "http://x/doc")) (Some (u "http://x/doc.pdf")).

Definition report (nb l d : string) : doc :=
  mkDoc (Some (u "Project Appraisal Document"))
        (Some (DocnaStr (u "Appraisal")))
        (Some (u d)) (Some (u l)) (Some (u nb))
        (Some (u "http://x/doc")) (Some (u "http://x/doc.pdf")).

Definition latest_all_mode : downloader :=
  mkDownloader (u "downloads") (u "all") true false.

End SelectionCases.

(** ** Calendar dates *)

(** The last decimal digit of [n], as a character. *)
Definition digit (n : N) : char := 48 + n mod 10.

(** A day written as the service writes it, [YYYY-MM-DD]. *)
Definition iso_date (y m d : N) : str :=
  [digit (y / 1000); digit (y / 100); digit (y / 10); digit y; 45;
   digit (m / 10); digit m; 45; digit (d / 10); digit d].

Definition calendar (y m d : N) : Prop :=
  y < 10000 /\ 1 <= m <= 12 /\ 1 <= d <= 31.

(** The first day is earlier than the second. *)
Definition date_before (a b : N * N * N) : Prop :=
  let '(y, m, d) := a in
  let '(y', m', d') := b in
  y < y' \/ (y = y' /\ (m < m' \/ (m = m' /\ d < d'))).

Section SelectionVocabulary.
Context {U : Unicode}.

(** [d] belongs to the language group [k]. *)
Definition in_group (k : str) (d : doc) : bool := str_eqb (lang_key d) k.

(** [by_lang] is the grouping of the documents read so far: one entry per
    language key met, holding the documents of that key in their order. *)
Definition grouped (seen : list doc) (by_lang : list (str * list doc))
  : Prop :=
  NoDup (List.map fst by_lang)
  /\ (forall k ds, In (k, ds) by_lang ->
        ds <> [] /\ ds = List.filter (in_group k) seen)
  /\ (forall d, In d seen -> In (lang_key d) (List.map fst by_lang)).

(** [r] is the newest document of its language in [docs], and the first
    of the newest: before it every document of that language is strictly
    older, after it none is newer. *)
Definition first_newest_of_language (docs : list doc) (r : doc) : Prop :=
  exists pre post,
    docs = pre ++ r :: post
    /\ (forall d, In d pre -> lang_key d = lang_key r ->
          str_ltb (date_key d) (date_key r) = true)
    /\ (forall d, In d post -> lang_key d = lang_key r ->
          str_ltb (date_key r) (date_key d) = false).

End SelectionVocabulary.

Module ProjectExamples.
Import Examples.

Definition pid_in (l : string) : doc :=
  mkDoc (Some (u "Project Information Document"))
        (Some (DocnaStr (u "Water supply")))
        (Some (u "2020-01-01")) (Some (u l)) (Some (u "R1"))
        (Some (u "http://x/doc")) (Some (u "http://x/doc.pdf")).

(** One page with an English and a French PID; every file request is
    answered with the bytes of a small file. *)
Definition two_pids : nat -> request -> get_outcome :=
  fun _ q =>
    match q with
    | ApiQuery _ _ => ok_json [pid_in "en"; pid_in "fr"]
    | FileGet _ =>
        Responds (mkResponse 200 JsonEmpty [DownloadExamples.pdf_bytes] false)
    end.

(** One page with one PID; every file request is answered HTTP 404. *)
Definition file_missing : nat -> request -> get_outcome :=
  fun _ q =>
    match q with
    | ApiQuery _ _ => ok_json [pid_in "en"]
    | FileGet _ => Responds (mkResponse 404 JsonEmpty [] false)
    end.

Definition country : str := u "Kenya".
Definition title : str := u "Water Project".

Definition pid_path : str :=
  u "downloads/Kenya/P149286_water-project/PID/2020-01-01_R1_water-supply_en.pdf".

End ProjectExamples.


(** ** Vocabulary for the further properties *)

(** No two hyphens next to each other. *)
Fixpoint hyphens_apart (s : str) : Prop :=
  match s with
  | x :: rest =>
      match rest with
      | y :: _ => (x = hyphen -> y <> hyphen) /\ hyphens_apart rest
      | [] => True
      end
  | [] => True
  end.

(** A page request for the project: its offset is a multiple of 200. *)
Definition is_page_request (project_id : str) (q : request) : Prop :=
  exists i : N, q = ApiQuery project_id (200 * i).

(** The downloads counted so far, whatever their outcome. *)
Definition downloads_counted (s : stats_t) : N :=
  downloads_successful s + downloads_skipped s + downloads_failed s.

Module ClientExamples.
Import Examples.

(** A mocked API whose every page is full. *)
Definition full_pages : nat -> request -> get_outcome :=
  fun _ _ => ok_json (repeat sample_doc 200).

(** Two full pages, then HTTP 503 for good. *)
Definition two_pages_then_down : nat -> request -> get_outcome :=
  fun n _ =>
    match n with
    | 0%nat | 1%nat => ok_json (repeat sample_doc 200)
    | _ => Responds (mkResponse 503 JsonEmpty [] false)
    end.

End ClientExamples.

Section DownloadMoreVocabulary.
Context {U : Unicode}.

(** [_download_document] finds a URL to fetch the document from. *)
Definition has_pdf_url (d : doc) : bool :=
  match pdf_url_of d with Some _ => true | None => false end.

End DownloadMoreVocabulary.

Module CollisionExamples.
Import Examples.

(** Two records that differ in name only, by a full stop. *)
Definition named (name : string) : doc :=
  mkDoc (Some (u "Project Information Document"))
        (Some (DocnaStr (u name)))
        (Some (u "2020-01-01")) (Some (u "en")) (Some (u "R1"))
        (Some (u "http://x/doc")) (Some (u "http://x/doc.pdf")).

(** Every file request is answered with the bytes of a small file. *)
Definition serves_files : nat -> request -> get_outcome :=
  fun _ _ =>
    Responds (mkResponse 200 JsonEmpty [DownloadExamples.pdf_bytes] false).

(** The stream of every file request breaks after one chunk. *)
Definition breaks_midway : nat -> request -> get_outcome :=
  fun _ _ =>
    Responds (mkResponse 200 JsonEmpty [DownloadExamples.pdf_bytes] true).

End CollisionExamples.

(** The row of the project list has a project id. *)
Definition has_id (project : str * str * str) : bool :=
  match fst (fst project) with [] => false | _ :: _ => true end.

(** What a summary row says about which project it is. *)
Definition summary_key (s : project_summary) : str * str * str :=
  (sum_project_id s, sum_country s, sum_project_title s).

Module EffectExamples.
Import Examples.

(** A PID record that names no URL at all. *)
Definition without_url : doc :=
  mkDoc (Some (u "Project Information Document"))
        (Some (DocnaStr (u "Road works")))
        (Some (u "2021-03-01")) (Some (u "en")) (Some (u "R2"))
        None None.

(** One page with a PID that has a URL and one that has none; file
    requests are served. *)
Definition one_without_url : nat -> request -> get_outcome :=
  fun _ q =>
    match q with
    | ApiQuery _ _ => ok_json [ProjectExamples.pid_in "en"; without_url]
    | FileGet _ =>
        Responds (mkResponse 200 JsonEmpty [DownloadExamples.pdf_bytes] false)
    end.

End EffectExamples.

(** * The ledger and the run

    [write_manifest], [write_summary] and [run].  The line that
    [csv.DictWriter] writes for the values of one row (quoted as the [csv]
    module does, terminated, encoded as UTF-8) is the parameter
    [csv_line].  [run] is given what [list(csv.DictReader(f))] is built
    from: the field names of the header and the records of the file, or
    nothing when opening or reading the file raised. *)

(** [str(n)] for a count. *)
Fixpoint decimal_digits (fuel : nat) (n : N) (acc : str) : str :=
  match fuel with
  | O => acc
  | S fuel =>
      let acc := (48 + n mod 10) :: acc in
      if n <? 10 then acc else decimal_digits fuel (n / 10) acc
  end.

Definition str_of_nat (n : nat) : str := decimal_digits (S n) (N.of_nat n) [].

(** [str(b)] for a flag. *)
Definition str_of_bool (b : bool) : str := if b then u "True" else u "False".

Definition manifest_fieldnames : list str :=
  [u "country"; u "project_id"; u "project_title"; u "doc_type";
   u "doc_date"; u "repnb"; u "language"; u "source_url"; u "pdf_url";
   u "saved_path"; u "status"; u "sha256"].

Definition summary_fieldnames : list str :=
  [u "country"; u "project_id"; u "project_title"; u "has_pid"; u "has_pad";
   u "pid_count"; u "pad_count"; u "pid_paths"; u "pad_paths"].

(** What [run] hands back: the value it returns, or an exception that it
    does not catch. *)
Inductive run_outcome :=
| Exit (code : Z)
| Uncaught.

(** [row[col]] for a dictionary made by [csv.DictReader]: the value under
    the last field name equal to [col], which is [None] when the record is
    too short to have it; no value at all ([KeyError]) when no field has
    that name.  [found] is the value seen so far. *)
Fixpoint cell_from (fieldnames : list str) (record : list str) (col : str)
         (found : option (option str)) : option (option str) :=
  match fieldnames with
  | [] => found
  | name :: names =>
      cell_from names (tail record) col
        (if str_eqb name col then Some (head record) else found)
  end.

Definition cell (fieldnames : list str) (record : list str) (col : str)
  : option (option str) :=
  cell_from fieldnames record col None.

Section Ledger.
Context {U : Unicode}.
Variable net : nat -> request -> get_outcome.
Variable self : downloader.
Variable csv_line : list str -> bytes.

(** [s.strip()]: without white space at either end ([str.strip] and [\s]
    of [re] use the same test on a [str]). *)
Fixpoint lstrip_space (s : str) : str :=
  match s with
  | [] => []
  | x :: s' => if is_space x then lstrip_space s' else s
  end.

Fixpoint rstrip_space (s : str) : str :=
  match s with
  | [] => []
  | x :: s' =>
      match rstrip_space s' with
      | [] => if is_space x then [] else [x]
      | r => x :: r
      end
  end.

Definition strip_space (s : str) : str := rstrip_space (lstrip_space s).

Definition manifest_values (r : manifest_row) : list str :=
  [row_country r; row_project_id r; row_project_title r;
   doc_type_str (row_doc_type r); row_doc_date r; row_repnb r;
   row_language r; row_source_url r; row_pdf_url r; row_saved_path r;
   status_str (row_status r); row_sha256 r].

Definition summary_values (s : project_summary) : list str :=
  [sum_country s; sum_project_id s; sum_project_title s;
   str_of_bool (has_pid s); str_of_bool (has_pad s);
   str_of_nat (pid_count s); str_of_nat (pad_count s);
   pid_paths s; pad_paths s].

(** [writer.writerows(rows)] *)
Definition csv_lines {A} (values : A -> list str) (rows : list A) : bytes :=
  concat (List.map (fun r => csv_line (values r)) rows).

Definition manifest_path : str := path_join (out_dir self) (u "manifest.csv").

Definition write_manifest (w : world) : world :=
  let file_exists := files w !! manifest_path in
  if dry_run self then w
  else
    match file_exists with
    | Some old =>                              (* mode 'a' *)
        write_file manifest_path
          (old ++ csv_lines manifest_values (manifest_data w)) w
    | None =>                                  (* mode 'w', with the header *)
        write_file manifest_path
          (csv_line manifest_fieldnames
           ++ csv_lines manifest_values (manifest_data w)) w
    end.

Definition summary_file (summary_path : option str) : str :=
  match summary_path with
  | Some (c :: p) => c :: p
  | _ => path_join (out_dir self) (u "summary.csv")
  end.

Definition write_summary (summary_data : list project_summary)
           (summary_path : option str) (w : world) : world :=
  if dry_run self then w
  else
    write_file (summary_file summary_path)
      (csv_line summary_fieldnames ++ csv_lines summary_values summary_data) w.

(** [project[col].strip()]; [None] where it raises. *)
Definition stripped_cell (fieldnames : list str) (project : list str)
           (col : str) : option str :=
  match cell fieldnames project col with
  | Some (Some v) => Some (strip_space v)
  | _ => None
  end.

(** The loop of [run] over the dictionaries of the reader; the summaries
    it has appended, or [None] in their place when one of the three
    [.strip()] calls, which are outside the [try], raised. *)
Fixpoint run_rows (fuel : nat) (fieldnames : list str)
         (id_col country_col title_col : str) (projects : list (list str))
         (w : world) : option (option (list project_summary) * world) :=
  match projects with
  | [] => Some (Some [], w)
  | project :: rest =>
      match stripped_cell fieldnames project id_col,
            stripped_cell fieldnames project country_col,
            stripped_cell fieldnames project title_col with
      | Some project_id, Some country, Some project_name =>
          match project_id with
          | [] => run_rows fuel fieldnames id_col country_col title_col rest w
          | _ =>
              match process_project net self fuel project_id country
                      project_name w with
              | None => None
              | Some (summary, w) =>
                  let w := with_stats count_project w in
                  match run_rows fuel fieldnames id_col country_col title_col
                          rest w with
                  | None => None
                  | Some (None, w) => Some (None, w)
                  | Some (Some summary_data, w) =>
                      Some (Some (summary :: summary_data), w)
                  end
              end
          end
      | _, _, _ => Some (None, w)
      end
  end.

(** [run]; [process_project] as modelled raises nothing, so that
    [failed_projects] stays empty and a run that reaches its end returns
    0. *)
Definition run (fuel : nat) (reader : option (list str * list (list str)))
           (id_col country_col title_col : str) (summary_out : option str)
           (w : world) : option (run_outcome * world) :=
  match reader with
  | None => Some (Exit 1, w)
  | Some (fieldnames, records) =>
      (* the reader passes over empty records *)
      let projects :=
        List.filter (fun r => match r with [] => false | _ => true end)
          records in
      match projects with
      | [] => Some (Exit 1, w)
      | _ =>
          let required_cols := [id_col; country_col; title_col] in
          let missing_cols :=
            List.filter
              (fun col => negb (existsb (fun name => str_eqb name col)
                                  fieldnames))
              required_cols in
          match missing_cols with
          | _ :: _ => Some (Exit 1, w)
          | [] =>
              match run_rows fuel fieldnames id_col country_col title_col
                      projects w with
              | None => None
              | Some (None, w) => Some (Uncaught, w)
              | Some (Some summary_data, w) =>
                  let w := write_manifest w in
                  let w := write_summary summary_data summary_out w in
                  Some (Exit 0, w)
              end
          end
      end
  end.

End Ledger.

Module LedgerExamples.
Import Examples.

(** The line for values that need no quoting, in ASCII. *)
Definition plain_csv_line (values : list str) : bytes :=
  join (u ",") values ++ [13; 10].

Definition header : list str :=
  [u "Project Id"; u "Country"; u "Project Name"].

(** A project list with a complete record, a record whose id is blank and
    a record that stops after the id. *)
Definition complete_record : list str := [u " P149286 "; u "Kenya"; u "Water "].
Definition blank_id_record : list str := [u "   "; u "Peru"; u "Roads"].
Definition short_record : list str := [u "P000001"].

End LedgerExamples.

Section RunVocabulary.
Context {U : Unicode}.

(** The record has a value in each of the three columns; [project] is what
    the loop of [run] makes of it. *)
Definition record_gives (fieldnames : list str)
           (id_col country_col title_col : str) (record : list str)
           (project : str * str * str) : Prop :=
  stripped_cell fieldnames record id_col = Some (fst (fst project))
  /\ stripped_cell fieldnames record country_col = Some (snd (fst project))
  /\ stripped_cell fieldnames record title_col = Some (snd project).

(** The record lacks a value in one of the three columns. *)
Definition record_incomplete (fieldnames : list str)
           (id_col country_col title_col : str) (record : list str) : Prop :=
  stripped_cell fieldnames record id_col = None
  \/ stripped_cell fieldnames record country_col = None
  \/ stripped_cell fieldnames record title_col = None.

End RunVocabulary.

Module RunExamples.
Import Examples LedgerExamples.

Definition sample_row : manifest_row :=
  mkRow (u "Kenya") proid (u "Water") PID (u "2020-01-01") (u "R1") (u "en")
        (u "http://x/doc") (u "http://x/doc.pdf") ProjectExamples.pid_path
        Downloaded (SHA256.hexdigest DownloadExamples.pdf_bytes).

(** A downloader with one manifest row in memory and no manifest file. *)
Definition one_row_world : world := append_manifest sample_row empty_world.

Definition id_col : str := u "Project Id".
Definition country_col : str := u "Country".
Definition title_col : str := u "Project Name".

End RunExamples.

(** ** The loop of [run] with its [try]

    [run] calls [process_project] in a [try]: a project whose processing
    raises is noted in [failed_projects], gets no summary row and is not
    counted, and the loop goes on; a run with a failed project returns 1.
    What the filesystem or a malformed record can make [process_project]
    raise is outside the model of the world, so the loop is given here for
    any processing, told by [attempt] whether it returned or raised and
    what it had done to the world by then. *)
Inductive attempt :=
| Returned (summary : project_summary)
| Raised.

(** The loop of [run] over the rows (id, country, title) after [.strip()];
    returns [summary_data] and [failed_projects]. *)
Fixpoint run_projects_guarded
         (process : str -> str -> str -> world -> option (attempt * world))
         (projects : list (str * str * str)) (w : world)
  : option (list project_summary * list str * world) :=
  match projects with
  | [] => Some ([], [], w)
  | (project_id, country, project_name) :: rest =>
      match project_id with
      | [] => run_projects_guarded process rest w
      | _ =>
          match process project_id country project_name w with
          | None => None
          | Some (Returned summary, w) =>
              let w := with_stats count_project w in
              match run_projects_guarded process rest w with
              | None => None
              | Some (summary_data, failed_projects, w) =>
                  Some (summary :: summary_data, failed_projects, w)
              end
          | Some (Raised, w) =>
              match run_projects_guarded process rest w with
              | None => None
              | Some (summary_data, failed_projects, w) =>
                  Some (summary_data, project_id :: failed_projects, w)
              end
          end
      end
  end.

(** The value [run] returns once the outputs are written. *)
Definition exit_code (failed_projects : list str) : Z :=
  match failed_projects with
  | _ :: _ => 1
  | [] => 0
  end.

(** [process_project] as modelled: it returns, or runs on; it never
    raises. *)
Definition process_project_attempt {U : Unicode}
           (net : nat -> request -> get_outcome) (self : downloader)
           (fuel : nat) (project_id country project_name : str) (w : world)
  : option (attempt * world) :=
  match process_project net self fuel project_id country project_name w with
  | Some (summary, w) => Some (Returned summary, w)
  | None => None
  end.

(** A processing that raises for the project [bad] before it has done
    anything, and is [process] for the others. *)
Definition raising_for (bad : str)
           (process : str -> str -> str -> world -> option (attempt * world))
           (project_id country project_name : str) (w : world)
  : option (attempt * world) :=
  if str_eqb project_id bad then Some (Raised, w)
  else process project_id country project_name w.

(** The id of a row of the project list. *)
Definition id_of (project : str * str * str) : str := fst (fst project).

(** * Properties *)

(** ** Agreement with the repository's own tests

    The cases of [test_downloader.py] that are plain ASCII, evaluated on the
    model. *)

Lemma test_document_detection :
  Examples.detect_ascii "Project Information Document" "Some document" = Some PID
  /\ Examples.detect_ascii "PID" "Another document" = Some PID
  /\ Examples.detect_ascii "Other" "Project Information Document for testing" = Some PID
  /\ Examples.detect_ascii "Concept Stage" "Some document" = Some PID
  /\ Examples.detect_ascii "Project Appraisal Document" "Some document" = Some PAD
  /\ Examples.detect_ascii "PAD" "Another document" = Some PAD
  /\ Examples.detect_ascii "Other" "Program Appraisal Document for testing" = Some PAD
  /\ Examples.detect_ascii "Implementation Status Report" "Some ISR" = None
  /\ Examples.detect_ascii "Procurement Plan" "Some procurement document" = None
  /\ Examples.detect_ascii "Audit Report" "Some audit document" = None.
Proof. vm_compute. by repeat split. Qed.

Lemma test_slug_generation :
  slug (U := ascii_tables) (u "Simple Project Name") = u "simple-project-name"
  /\ slug (U := ascii_tables) (u "Complex Project Name with Numbers 123")
     = u "complex-project-name-with-numbers-123"
  /\ slug (U := ascii_tables)
       (concat (repeat (u "Very Long Project Name ") 10))
     = u "very-long-project-name-very-long-project-name-very-long-project-name-very-long-project-name-very-long-project-name-very".
Proof. vm_compute. by repeat split. Qed.

Lemma sha256_test_vectors :
  SHA256.hexdigest []
  = u "e3b0c44298fc1c149afbf4c8996fb92427ae41e4649b934ca495991b7852b855"
  /\ SHA256.hexdigest (u "abc")
     = u "ba7816bf8f01cfea414140de5dae2223b00361a396177a9cb410ff61f20015ad"
  /\ SHA256.hexdigest
       (u "abcdbcdecdefdefgefghfghighijhijkijkljklmklmnlmnomnopnopq")
     = u "248d6a61d20638b8e5c026930c3e6039a33ce45964ff2167f6ecedd419db06c1".
Proof. vm_compute. by repeat split. Qed.

(** ** Classification *)

Section ClassifierFacts.
Context {U : Unicode}.

Lemma filter_step_fold (docs : list doc) (acc : filtered) :
  fold_left filter_step docs acc =
  mkFiltered (filtered_pid acc ++ List.filter (is_type PID) docs)
             (filtered_pad acc ++ List.filter (is_type PAD) docs).
Proof.
  revert acc; induction docs as [|d docs IH]; intros [ps qs]; simpl.
  - by rewrite !app_nil_r.
  - rewrite IH. unfold filter_step, is_type.
    destruct (detect_document_type d) as [[]|]; simpl;
      by rewrite <- ?app_assoc.
Qed.

(** [filter_documents] keeps, per type and in order, the documents that
    [detect_document_type] gives that type. *)
Lemma filter_documents_by_type (docs : list doc) (t : doc_type) :
  by_type (filter_documents docs) t = List.filter (is_type t) docs.
Proof.
  unfold filter_documents. rewrite filter_step_fold. by destruct t.
Qed.



End ClassifierFacts.


(** ** The WDS client *)

Section ClientFacts.
Variable net : nat -> request -> get_outcome.

Lemma after_nil (w : world) : after w [] [] = w.
Proof. destruct w; unfold after; simpl. by rewrite !app_nil_r. Qed.

Lemma after_after (w : world) r1 d1 r2 d2 :
  after (after w r1 d1) r2 d2 = after w (r1 ++ r2) (d1 ++ d2).
Proof. unfold after; simpl. by rewrite !app_assoc. Qed.

Lemma log_request_after (q : request) (w : world) :
  log_request q w = after w [q] [].
Proof. unfold log_request, after. by rewrite app_nil_r. Qed.

Lemma sleep_after (d : N) (w : world) : sleep d w = after w [] [d].
Proof. unfold sleep, after. by rewrite app_nil_r. Qed.

Lemma requests_after (w : world) r d :
  length (requests (after w r d)) = (length (requests w) + length r)%nat.
Proof. unfold after; simpl. by rewrite length_app. Qed.

(** A first attempt answered with HTTP 200 ends the call. *)
Lemma call_wds_api_ok (pid : str) (offset : N) (w : world) (r : response) :
  net (length (requests w)) (ApiQuery pid offset) = Responds r ->
  status_code r = 200%Z ->
  call_wds_api net pid offset w = (json r, after w [ApiQuery pid offset] []).
Proof.
  intros Hnet Hst. unfold call_wds_api; simpl. rewrite Hnet, Hst; simpl.
  by rewrite log_request_after.
Qed.



(** Without a short page the loop does not end: no amount of fuel gives a
    result. *)
Lemma pagination_unbounded (pid : str) (fuel : nat) :
  forall (acc : list doc) (k : nat) (w : world),
  (forall i, exists r,
     net (length (requests w) + i) (ApiQuery pid (200 * N.of_nat (k + i)))
     = Responds r
     /\ status_code r = 200%Z
     /\ (200 <= length (page_records (json r)))%nat) ->
  get_project_documents_from net fuel pid acc (200 * N.of_nat k) w = None.
Proof.
  induction fuel as [|fuel IH]; intros acc k w Hnet; [reflexivity|].
  destruct (Hnet 0%nat) as (r & Hr & Hst & Hfull).
  rewrite !Nat.add_0_r in Hr.
  cbn [get_project_documents_from].
  rewrite (call_wds_api_ok _ _ _ _ Hr Hst).
  unfold page_records in Hfull.
  destruct (page_docs (json r)) as [[|d ds]|]; simpl in Hfull; try lia.
  destruct (Nat.ltb_spec (length (d :: ds)) 200); [simpl in *; lia|].
  replace (200 * N.of_nat k + 200) with (200 * N.of_nat (S k)) by lia.
  apply IH. intros i. destruct (Hnet (S i)) as (r' & Hr' & Hrest).
  exists r'. split; [|done].
  rewrite requests_after; simpl.
  replace (length (requests w) + 1 + i)%nat
    with (length (requests w) + S i)%nat by lia.
  replace (S (k + i)) with (k + S i)%nat by lia. done.
Qed.

End ClientFacts.


Section RetryFacts.
Context {U : Unicode}.
Variable net : nat -> request -> get_outcome.
Variable self : downloader.

Lemma retry_step (attempt : nat) (rest : list nat) (pid : str) (offset : N)
      (w : world) :
  retryable (net (length (requests w)) (ApiQuery pid offset)) = true ->
  call_wds_api_attempts net (attempt :: rest) pid offset w =
  call_wds_api_attempts net rest pid offset
    (after w [ApiQuery pid offset] [delay_of attempt]).
Proof.
  intros Hretry. cbn [call_wds_api_attempts session_get].
  rewrite log_request_after, sleep_after, after_after. simpl app.
  destruct (net _ _) as [|r]; [reflexivity|]. simpl in Hretry.
  destruct (Z.eqb_spec (status_code r) 200) as [E|_];
    [rewrite E in Hretry; discriminate|].
  destruct (status_code r =? 429)%Z; [reflexivity|]. simpl in Hretry.
  by rewrite Hretry.
Qed.

Lemma final_step (attempt : nat) (rest : list nat) (pid : str) (offset : N)
      (w : world) (r : response) :
  net (length (requests w)) (ApiQuery pid offset) = Responds r ->
  retryable (Responds r) = false ->
  call_wds_api_attempts net (attempt :: rest) pid offset w =
  (if (status_code r =? 200)%Z then json r else JsonEmpty,
   after w [ApiQuery pid offset] []).
Proof.
  intros Hnet [H429 H500]%orb_false_elim.
  cbn [call_wds_api_attempts session_get].
  rewrite Hnet, log_request_after, H429, H500.
  by destruct (status_code r =? 200)%Z.
Qed.

Lemma attempts_exhausted (pid : str) (offset : N) (attempts : list nat) :
  forall w,
  (forall i, (i < length attempts)%nat ->
     retryable (net (length (requests w) + i) (ApiQuery pid offset)) = true) ->
  call_wds_api_attempts net attempts pid offset w =
  (JsonEmpty, after w (repeat (ApiQuery pid offset) (length attempts))
                (List.map delay_of attempts)).
Proof.
  induction attempts as [|a rest IH]; intros w Hretry.
  - by rewrite after_nil.
  - rewrite retry_step.
    2: { specialize (Hretry 0%nat). rewrite Nat.add_0_r in Hretry.
         apply Hretry. simpl; lia. }
    rewrite IH.
    + by rewrite after_after.
    + intros i Hi. rewrite requests_after. simpl length.
      replace (length (requests w) + 1 + i)%nat
        with (length (requests w) + S i)%nat by lia.
      apply Hretry. simpl; lia.
Qed.

Lemma attempts_final (pid : str) (offset : N) (pre : list nat) :
  forall w a rest r,
  (forall i, (i < length pre)%nat ->
     retryable (net (length (requests w) + i) (ApiQuery pid offset)) = true) ->
  net (length (requests w) + length pre) (ApiQuery pid offset) = Responds r ->
  retryable (Responds r) = false ->
  call_wds_api_attempts net (pre ++ a :: rest) pid offset w =
  (if (status_code r =? 200)%Z then json r else JsonEmpty,
   after w (repeat (ApiQuery pid offset) (S (length pre)))
     (List.map delay_of pre)).
Proof.
  induction pre as [|p pre IH]; intros w a rest r Hretry Hnet Hfinal.
  - simpl in Hnet. rewrite Nat.add_0_r in Hnet. cbn [app].
    by rewrite (final_step _ _ _ _ _ _ Hnet Hfinal).
  - cbn [app]. rewrite retry_step.
    2: { specialize (Hretry 0%nat). rewrite Nat.add_0_r in Hretry.
         apply Hretry. simpl; lia. }
    rewrite (IH _ a rest r).
    + by rewrite after_after.
    + intros i Hi. rewrite requests_after. simpl length.
      replace (length (requests w) + 1 + i)%nat
        with (length (requests w) + S i)%nat by lia.
      apply Hretry. simpl; lia.
    + rewrite requests_after. simpl length. simpl length in Hnet.
      replace (length (requests w) + 1 + length pre)%nat
        with (length (requests w) + S (length pre))%nat by lia.
      exact Hnet.
    + exact Hfinal.
Qed.

(** The fetch ends where a call comes back empty, with what it has. *)
Lemma soft_failure (pid : str) (offset : N) (fuel : nat)
      (all_docs : list doc) (w w' : world) :
  call_wds_api net pid offset w = (JsonEmpty, w') ->
  get_project_documents_from net (S fuel) pid all_docs offset w =
  Some (all_docs, w').
Proof. intros H. cbn [get_project_documents_from]. by rewrite H. Qed.

(** C3. Within one page request, HTTP 429, a status of 500 or more and a
    transport failure lead to another attempt, three attempts at most,
    with delays of 1, 2 and 4 seconds; any other status ends the call at
    once, empty unless it is 200 (so a 4xx other than 429 is not retried);
    after three failed attempts the call is empty, the fetch returns the
    records accumulated so far, and a project whose requests all fail gets
    its summary row, without PID or PAD, after exactly three attempts. *)
Theorem C3_retry_policy (pid country name : str) (offset : N) (w : world) :
  let q := ApiQuery pid offset in
  let o := fun i => net (length (requests w) + i)%nat q in
  (forall k r, (k < 3)%nat ->
     (forall i, (i < k)%nat -> retryable (o i) = true) ->
     o k = Responds r -> retryable (o k) = false ->
     call_wds_api net pid offset w =
     (if (status_code r =? 200)%Z then json r else JsonEmpty,
      after w (repeat q (S k)) (firstn k backoff)))
  /\ (forall r, o 0%nat = Responds r ->
      (400 <= status_code r < 500)%Z -> status_code r <> 429%Z ->
      call_wds_api net pid offset w = (JsonEmpty, after w [q] []))
  /\ ((forall i, (i < 3)%nat -> retryable (o i) = true) ->
      call_wds_api net pid offset w = (JsonEmpty, after w (repeat q 3) backoff)
      /\ forall fuel all_docs,
           get_project_documents_from net (S fuel) pid all_docs offset w =
           Some (all_docs, after w (repeat q 3) backoff))
  /\ ((forall n, retryable (net n (ApiQuery pid 0)) = true) ->
      pid <> [] ->
      forall fuel,
        run_projects net self (S fuel) [(pid, country, name)] w =
        Some ([mkSummary country pid name false false 0 0 [] []],
              with_stats count_project
                (after w (repeat (ApiQuery pid 0) 3) backoff))).
Proof.
  intros q o.
  assert (Hfinal : forall k r, (k < 3)%nat ->
     (forall i, (i < k)%nat -> retryable (o i) = true) ->
     o k = Responds r -> retryable (o k) = false ->
     call_wds_api net pid offset w =
     (if (status_code r =? 200)%Z then json r else JsonEmpty,
      after w (repeat q (S k)) (firstn k backoff))).
  { intros k r Hk Hretry Hnet Hlast. rewrite Hnet in Hlast.
    unfold call_wds_api, max_retries.
    destruct k as [|[|[|k]]]; [| | |lia].
    - by apply (attempts_final pid offset [] w 0%nat [1; 2]%nat r).
    - by apply (attempts_final pid offset [0%nat] w 1%nat [2%nat] r).
    - by apply (attempts_final pid offset [0; 1]%nat w 2%nat [] r). }
  assert (Hall : (forall i, (i < 3)%nat -> retryable (o i) = true) ->
      call_wds_api net pid offset w =
      (JsonEmpty, after w (repeat q 3) backoff)).
  { intros Hretry. unfold call_wds_api, max_retries.
    by apply (attempts_exhausted pid offset (seq 0 3) w). }
  split; [exact Hfinal|]. split; [|split].
  - intros r Hnet Hrange Hne.
    assert (Hlast : retryable (o 0%nat) = false).
    { rewrite Hnet; simpl. apply orb_false_intro; [|apply Z.leb_gt]; lia. }
    rewrite (Hfinal 0%nat r); [|lia|intros; lia|done|done].
    destruct (Z.eqb_spec (status_code r) 200); [lia|reflexivity].
  - intros Hretry. split; [by apply Hall|].
    intros fuel all_docs. apply soft_failure. by apply Hall.
  - intros Hdown Hpid fuel. cbn [run_projects].
    destruct pid as [|c pid']; [done|].
    unfold process_project, get_project_documents.
    rewrite (soft_failure (c :: pid') 0 fuel [] w
               (after w (repeat (ApiQuery (c :: pid') 0) 3) backoff)).
    + reflexivity.
    + unfold call_wds_api, max_retries.
      rewrite (attempts_exhausted (c :: pid') 0 (seq 0 3) w); [done|].
      intros; apply Hdown.
Qed.

End RetryFacts.

(** A server that always answers 503: one summary row without PID or PAD,
    three requests, delays of 1, 2 and 4 seconds. *)
Lemma C3_retry_policy_witness :
  run_projects (U := ascii_tables) Examples.always_503 Examples.english_mode 1
    [(Examples.proid, u "Kenya", u "Water")] Examples.empty_world
  = Some ([mkSummary (u "Kenya") Examples.proid (u "Water")
             false false 0 0 [] []],
          with_stats count_project
            (after Examples.empty_world
               (repeat (ApiQuery Examples.proid 0) 3) backoff)).
Proof.
  pose proof (C3_retry_policy (U := ascii_tables) Examples.always_503
                Examples.english_mode Examples.proid (u "Kenya") (u "Water")
                0 Examples.empty_world) as (_ & _ & _ & Hdown).
  apply Hdown; [reflexivity|discriminate].
Defined.

(** ** The downloader *)

Section DownloadFacts.
Context {U : Unicode}.
Variable net : nat -> request -> get_outcome.
Variable self : downloader.

Lemma download_existing (url file_path : str) (w : world) (content : bytes) :
  dry_run self = false ->
  files w !! file_path = Some content ->
  download_pdf net self url file_path w =
  ((true, SkippedExisting, SHA256.hexdigest content), w).
Proof.
  intros Hdry Hfile. unfold download_pdf, get_file_hash.
  rewrite Hdry, Hfile. by rewrite bool_decide_eq_true_2.
Qed.

(** Only the branch for an existing file reports [SkippedExisting], and it
    leaves the world as it was. *)
Lemma skipped_is_silent (url file_path : str) (w w' : world)
      (ok : bool) (h : str) :
  download_pdf net self url file_path w = ((ok, SkippedExisting, h), w') ->
  w' = w /\ is_Some (files w !! file_path).
Proof.
  unfold download_pdf. destruct (dry_run self); [by intros [=]|].
  case_bool_decide as Hex; [by intros [= _ _ <-]|].
  cbn [session_get]. destruct (net _ _) as [|r]; [by intros [=]|].
  destruct (raise_for_status r); [by intros [=]|].
  destruct (stream_breaks r); [by intros [=]|].
  by destruct (files (write_file _ _ _) !! _) as [[|]|]; intros [=].
Qed.

(** C4 (amended). For a destination that is already on disk the download
    makes no request and changes nothing; it reports
    [(true, skipped_existing, SHA-256 of the file)] when [dry_run] is off
    and [(true, dry_run, '')] when it is on. A manifest row with status
    [skipped_existing] is only ever written by a call that made no
    request and wrote no file. *)
Theorem C4_existing_file_no_transfer :
  (forall url file_path w content,
     files w !! file_path = Some content ->
     download_pdf net self url file_path w =
     (if dry_run self then (true, DryRun, [])
      else (true, SkippedExisting, SHA256.hexdigest content), w))
  /\ (forall d t pid country name w ok h w',
      _download_document net self d t pid country name w
      = ((ok, SkippedExisting, h), w') ->
      exists row, w' = append_manifest row w
                  /\ row_status row = SkippedExisting
                  /\ requests w' = requests w /\ files w' = files w).
Proof.
  split.
  - intros url file_path w content Hfile.
    destruct (dry_run self) eqn:Hdry.
    + unfold download_pdf. by rewrite Hdry.
    + by apply download_existing.
  - intros d t pid country name w ok h w'. unfold _download_document.
    destruct (pdf_url_of d) as [pdf_url|]; [|by intros [=]].
    destruct (download_pdf _ _ _ _ _) as [[[ok' st] h'] w1] eqn:Hdl.
    intros [= -> -> -> <-].
    apply skipped_is_silent in Hdl as [-> _].
    eexists; split; [reflexivity|]. done.
Qed.

(** C10. Outside a dry run, a download that is answered successfully but
    without content reports failure and leaves an empty file behind; from
    then on every download for that destination, in any world where the
    empty file is still there, is skipped as existing, with the hash of the
    empty file and without a request. *)
Theorem C10_empty_file_blocks_retry (url file_path : str) (w : world)
        (r : response) :
  dry_run self = false ->
  files w !! file_path = None ->
  net (length (requests w)) (FileGet url) = Responds r ->
  raise_for_status r = false ->
  stream_breaks r = false ->
  concat (chunks r) = [] ->
  let w1 := write_file file_path [] (log_request (FileGet url) w) in
  download_pdf net self url file_path w = ((false, Failed, []), w1)
  /\ files w1 !! file_path = Some []
  /\ (forall urls,
       download_again net self urls file_path w1 =
       (repeat (true, SkippedExisting, SHA256.hexdigest []) (length urls), w1))
  /\ (forall url' w2,
       files w2 !! file_path = Some [] ->
       download_pdf net self url' file_path w2 =
       ((true, SkippedExisting, SHA256.hexdigest []), w2)).
Proof.
  intros Hdry Hnone Hnet Hstatus Hstream Hempty w1.
  assert (Hfile : files w1 !! file_path = Some [])
    by (unfold w1; simpl; apply lookup_insert_eq).
  split; [|split; [exact Hfile|split;
    [|intros url' w2 Hw2; by apply download_existing]]].
  - unfold download_pdf. rewrite Hdry, Hnone.
    rewrite bool_decide_eq_false_2 by (intros [? ?]; discriminate).
    cbn [session_get]. rewrite Hnet, Hstatus, Hstream, Hempty.
    fold w1. by rewrite Hfile.
  - induction urls as [|url' urls IH]; [reflexivity|].
    cbn [download_again].
    rewrite (download_existing url' file_path w1 [] Hdry Hfile), IH.
    reflexivity.
Qed.

End DownloadFacts.

(** In a dry run an existing destination is reported as [dry_run], not as
    [skipped_existing]. *)
Lemma C4_counterexample :
  files DownloadExamples.stored_world !! DownloadExamples.stored_path
  = Some DownloadExamples.pdf_bytes
  /\ fst (download_pdf Examples.always_503 DownloadExamples.dry_mode
            DownloadExamples.file_url DownloadExamples.stored_path
            DownloadExamples.stored_world)
     <> (true, SkippedExisting,
         SHA256.hexdigest DownloadExamples.pdf_bytes).
Proof. split; [vm_compute; reflexivity|vm_compute; discriminate]. Qed.

Lemma C4_existing_file_no_transfer_witness :
  download_pdf Examples.always_503 Examples.english_mode
    DownloadExamples.file_url DownloadExamples.stored_path
    DownloadExamples.stored_world
  = ((true, SkippedExisting, SHA256.hexdigest DownloadExamples.pdf_bytes),
     DownloadExamples.stored_world).
Proof.
  pose proof (C4_existing_file_no_transfer (U := ascii_tables)
                Examples.always_503
                Examples.english_mode) as [Hskip _].
  apply (Hskip DownloadExamples.file_url DownloadExamples.stored_path
           DownloadExamples.stored_world DownloadExamples.pdf_bytes).
  vm_compute; reflexivity.
Defined.

Lemma C10_empty_file_blocks_retry_witness :
  download_pdf DownloadExamples.empty_200 Examples.english_mode
    DownloadExamples.file_url DownloadExamples.stored_path Examples.empty_world
  = ((false, Failed, []),
     write_file DownloadExamples.stored_path []
       (log_request (FileGet DownloadExamples.file_url) Examples.empty_world))
  /\ download_again DownloadExamples.empty_200 Examples.english_mode
       [DownloadExamples.file_url; DownloadExamples.file_url]
       DownloadExamples.stored_path
       (write_file DownloadExamples.stored_path []
          (log_request (FileGet DownloadExamples.file_url)
             Examples.empty_world))
     = (repeat (true, SkippedExisting, SHA256.hexdigest []) 2,
        write_file DownloadExamples.stored_path []
          (log_request (FileGet DownloadExamples.file_url)
             Examples.empty_world)).
Proof.
  pose proof (C10_empty_file_blocks_retry DownloadExamples.empty_200
                Examples.english_mode DownloadExamples.file_url
                DownloadExamples.stored_path Examples.empty_world
                (mkResponse 200 JsonEmpty [] false)
                eq_refl eq_refl eq_refl eq_refl eq_refl eq_refl)
    as (Hfail & _ & Hagain & _).
  split; [exact Hfail|].
  exact (Hagain [DownloadExamples.file_url; DownloadExamples.file_url]).
Defined.

(** ** The selection policy *)

Section StringOrder.

Lemma str_ltb_irrefl (a : str) : str_ltb a a = false.
Proof.
  induction a as [|x a IH]; [reflexivity|]. simpl.
  rewrite N.ltb_irrefl, N.eqb_refl, IH. reflexivity.
Qed.

Lemma str_ltb_trans (a : str) :
  forall b c, str_ltb a b = true -> str_ltb b c = true -> str_ltb a c = true.
Proof.
  induction a as [|x a IH]; intros [|y b] [|z c]; simpl; try done.
  intros Hab Hbc.
  apply orb_true_iff in Hab as [Hxy|[Hxy Hab]%andb_true_iff];
    apply orb_true_iff in Hbc as [Hyz|[Hyz Hbc]%andb_true_iff];
    rewrite ?N.ltb_lt, ?N.eqb_eq in *; apply orb_true_iff.
  - left. apply N.ltb_lt. lia.
  - left. apply N.ltb_lt. lia.
  - left. apply N.ltb_lt. lia.
  - right. subst. rewrite N.eqb_refl. simpl. by apply (IH b c).
Qed.

Lemma str_ltb_trichotomy (a : str) :
  forall b, str_ltb a b = true \/ a = b \/ str_ltb b a = true.
Proof.
  induction a as [|x a IH]; intros [|y b]; simpl; auto.
  destruct (N.lt_trichotomy x y) as [H|[H|H]].
  - left. apply orb_true_iff. left. by apply N.ltb_lt.
  - subst y. rewrite N.ltb_irrefl, N.eqb_refl. simpl.
    destruct (IH b) as [H|[H|H]]; auto. right; left. by subst.
  - right; right. apply orb_true_iff. left. by apply N.ltb_lt.
Qed.

(** Whatever is below [b] is below everything that is not below [b]. *)
Lemma str_ltb_below (a b c : str) :
  str_ltb a b = true -> str_ltb c b = false -> str_ltb a c = true.
Proof.
  intros Hab Hcb. destruct (str_ltb_trichotomy b c) as [H|[H|H]].
  - by apply (str_ltb_trans a b c).
  - by subst.
  - congruence.
Qed.

End StringOrder.

(** ** Dates as strings *)

Ltac euclid := zify; Z.to_euclidean_division_equations; lia.

Section CalendarOrder.

Lemma str_ltb_cons (x y : char) (a b : str) :
  str_ltb (x :: a) (y :: b) = true <-> x < y \/ (x = y /\ str_ltb a b = true).
Proof.
  simpl. rewrite orb_true_iff, andb_true_iff, N.ltb_lt, N.eqb_eq. tauto.
Qed.

Lemma two_digits_order (a b : N) (s t : str) :
  a < 100 -> b < 100 ->
  str_ltb (digit (a / 10) :: digit a :: s) (digit (b / 10) :: digit b :: t)
  = true
  <-> a < b \/ (a = b /\ str_ltb s t = true).
Proof.
  intros Ha Hb. rewrite !str_ltb_cons. unfold digit. split.
  - intros [H|[H1 [H|[H2 H3]]]]; [left; euclid..|].
    right. split; [euclid|done].
  - intros [H|[-> H]]; [|tauto].
    assert (48 + (a / 10) mod 10 < 48 + (b / 10) mod 10
            \/ (48 + (a / 10) mod 10 = 48 + (b / 10) mod 10
                /\ 48 + a mod 10 < 48 + b mod 10)) by euclid.
    tauto.
Qed.

Lemma four_digits_split (a : N) :
  digit (a / 1000) = digit (a / 100 / 10)
  /\ digit (a / 10) = digit (a mod 100 / 10)
  /\ digit a = digit (a mod 100).
Proof. unfold digit. repeat split; f_equal; euclid. Qed.

Lemma four_digits_order (a b : N) (s t : str) :
  a < 10000 -> b < 10000 ->
  str_ltb
    (digit (a / 1000) :: digit (a / 100) :: digit (a / 10) :: digit a :: s)
    (digit (b / 1000) :: digit (b / 100) :: digit (b / 10) :: digit b :: t)
  = true
  <-> a < b \/ (a = b /\ str_ltb s t = true).
Proof.
  intros Ha Hb.
  destruct (four_digits_split a) as (-> & -> & ->).
  destruct (four_digits_split b) as (-> & -> & ->).
  rewrite two_digits_order by euclid.
  rewrite two_digits_order by euclid.
  split.
  - intros [H|[H1 [H|[H2 H3]]]]; [left; euclid..|].
    right. split; [euclid|done].
  - intros [H|[-> H]]; [|tauto].
    assert (a / 100 < b / 100
            \/ (a / 100 = b / 100 /\ a mod 100 < b mod 100)) by euclid.
    tauto.
Qed.

(** On days written [YYYY-MM-DD] the order of the strings is the order of
    the calendar, whatever follows the day. *)
Lemma iso_date_order (y m d y' m' d' : N) (s t : str) :
  calendar y m d -> calendar y' m' d' ->
  date_before (y, m, d) (y', m', d') ->
  str_ltb (iso_date y m d ++ s) (iso_date y' m' d' ++ t) = true.
Proof.
  intros (Hy & Hm & Hd) (Hy' & Hm' & Hd'). unfold iso_date, date_before.
  cbn [app].
  rewrite four_digits_order by lia.
  rewrite (str_ltb_cons 45 45).
  rewrite two_digits_order by lia.
  rewrite (str_ltb_cons 45 45).
  rewrite two_digits_order by lia.
  generalize (str_ltb s t = true). intros P.
  assert (Hsep : (45 : N) = 45) by reflexivity. tauto.
Qed.

End CalendarOrder.



Section LatestFacts.
Context {U : Unicode}.
Variable self : downloader.

Lemma group_add_keys (k : str) (d : doc) (g : list (str * list doc)) :
  forall k', In k' (List.map fst (group_add k d g))
             <-> k' = k \/ In k' (List.map fst g).
Proof.
  induction g as [|[k0 ds0] g IH]; intros k'; simpl.
  - intuition (subst; auto).
  - unfold str_eqb. case_bool_decide as Hk; simpl.
    + subst k0. intuition (subst; auto).
    + rewrite IH. intuition (subst; auto).
Qed.

Lemma group_add_nodup (k : str) (d : doc) (g : list (str * list doc)) :
  NoDup (List.map fst g) -> NoDup (List.map fst (group_add k d g)).
Proof.
  induction g as [|[k0 ds0] g IH]; simpl; intros Hnd.
  - repeat constructor. by intros ?%elem_of_nil.
  - apply NoDup_cons in Hnd as [Hk0 Hnd].
    unfold str_eqb. case_bool_decide as Hk; simpl.
    + apply NoDup_cons. done.
    + apply NoDup_cons. split; [|by apply IH].
      rewrite list_elem_of_In, group_add_keys.
      rewrite list_elem_of_In in Hk0. intros [->|?]; done.
Qed.

Lemma in_keys (k : str) (ds : list doc) (g : list (str * list doc)) :
  In (k, ds) g -> In k (List.map fst g).
Proof. intros H. apply in_map_iff. by exists (k, ds). Qed.

Lemma group_add_entries (k : str) (d : doc) (g : list (str * list doc)) :
  NoDup (List.map fst g) ->
  forall k' ds', In (k', ds') (group_add k d g) ->
    (k' = k /\ ds' = [d] /\ ~ In k (List.map fst g))
    \/ (k' = k /\ exists ds, In (k, ds) g /\ ds' = ds ++ [d])
    \/ (k' <> k /\ In (k', ds') g).
Proof.
  induction g as [|[k0 ds0] g IH]; intros Hnd k' ds'; simpl.
  - intros [[= <- <-]|[]]. left. by repeat split; auto.
  - simpl in Hnd. apply NoDup_cons in Hnd as [Hk0 Hnd].
    rewrite list_elem_of_In in Hk0.
    unfold str_eqb. case_bool_decide as Hk; simpl.
    + subst k0. intros [[= <- <-]|Hin].
      * right; left. split; [done|]. exists ds0. split; [by left|done].
      * right; right. split; [|by right].
        intros ->. apply Hk0. by apply (in_keys k ds').
    + intros [[= <- <-]|Hin].
      * right; right. split; [done|by left].
      * destruct (IH Hnd k' ds' Hin) as [(-> & -> & Hnew)|[(-> & ds & Hds & ->)|[Hne Hold]]].
        -- left. repeat split; [done..|]. simpl. intros [?|?]; done.
        -- right; left. split; [done|]. exists ds. split; [by right|done].
        -- right; right. split; [done|by right].
Qed.

Lemma filter_in_group_none (k : str) (seen : list doc) :
  (forall d, In d seen -> lang_key d <> k) ->
  List.filter (in_group k) seen = [].
Proof.
  induction seen as [|d seen IH]; intros Hne; [reflexivity|]. simpl.
  unfold in_group at 1, str_eqb. rewrite bool_decide_eq_false_2.
  - apply IH. intros d' Hd'. apply Hne. by right.
  - apply Hne. by left.
Qed.

Lemma grouped_step (seen : list doc) (g : list (str * list doc)) (d : doc) :
  grouped seen g -> grouped (seen ++ [d]) (group_add (lang_key d) d g).
Proof.
  intros (Hnd & Hent & Hcov). split; [by apply group_add_nodup|]. split.
  - intros k ds Hin.
    destruct (group_add_entries _ _ _ Hnd _ _ Hin)
      as [(-> & -> & Hnew)|[(-> & ds0 & Hds0 & ->)|[Hne Hold]]].
    + split; [done|]. rewrite List.filter_app, filter_in_group_none.
      * simpl. unfold in_group, str_eqb. by rewrite bool_decide_eq_true_2.
      * intros d' Hd' Heq. apply Hnew. rewrite <- Heq. by apply Hcov.
    + split; [by destruct ds0|]. rewrite List.filter_app.
      destruct (Hent _ _ Hds0) as [_ <-]. simpl.
      unfold in_group, str_eqb. by rewrite bool_decide_eq_true_2.
    + destruct (Hent _ _ Hold) as [Hne0 Heq]. split; [done|].
      rewrite List.filter_app, <- Heq. simpl.
      unfold in_group, str_eqb. rewrite bool_decide_eq_false_2 by done.
      by rewrite app_nil_r.
  - intros d' [Hd'|[<-|[]]]%in_app_iff; apply group_add_keys; auto.
Qed.

Lemma grouped_fold (docs : list doc) :
  forall seen g, grouped seen g ->
  grouped (seen ++ docs)
    (fold_left (fun by_lang d => group_add (lang_key d) d by_lang) docs g).
Proof.
  induction docs as [|d docs IH]; intros seen g Hg; simpl.
  - by rewrite app_nil_r.
  - replace (seen ++ d :: docs) with ((seen ++ [d]) ++ docs)
      by (by rewrite <- app_assoc).
    apply IH. by apply grouped_step.
Qed.

Lemma group_by_lang_grouped (docs : list doc) :
  grouped docs (group_by_lang docs).
Proof.
  apply (grouped_fold docs [] []). split; [constructor|]. split; by intros.
Qed.

(** The head of the stable descending sort is the first of the newest
    documents. *)
Lemma sorted_newest_first_head (l : list doc) :
  l <> [] ->
  exists r rest pre post,
    sorted_newest_first l = r :: rest
    /\ l = pre ++ r :: post
    /\ (forall d, In d pre -> str_ltb (date_key d) (date_key r) = true)
    /\ (forall d, In d post -> str_ltb (date_key r) (date_key d) = false).
Proof.
  induction l as [|x l IH]; [done|]. intros _.
  destruct l as [|y l].
  - exists x, [], [], []. simpl. by repeat split.
  - destruct IH as (r & rest & pre & post & Hsort & Hl & Hpre & Hpost);
      [done|].
    change (sorted_newest_first (x :: y :: l))
      with (insert_desc x (sorted_newest_first (y :: l))).
    rewrite Hsort. simpl.
    destruct (str_ltb (date_key x) (date_key r)) eqn:Hx.
    + exists r, (insert_desc x rest), (x :: pre), post.
      split; [done|]. split; [by rewrite Hl|]. split; [|done].
      intros d [<-|Hd]; auto.
    + exists x, (r :: rest), [], (y :: l).
      split; [done|]. split; [done|]. split; [by intros ? []|].
      intros d Hd. rewrite Hl in Hd.
      destruct (str_ltb (date_key x) (date_key d)) eqn:Hxd; [|done].
      apply in_app_iff in Hd as [Hd|[<-|Hd]].
      * rewrite (str_ltb_trans _ _ _ Hxd (Hpre d Hd)) in Hx. done.
      * congruence.
      * rewrite (str_ltb_below _ _ _ Hxd (Hpost d Hd)) in Hx. done.
Qed.

Lemma filter_split (P : doc -> bool) (l : list doc) :
  forall gpre r gpost,
  List.filter P l = gpre ++ r :: gpost ->
  exists pre post,
    l = pre ++ r :: post
    /\ List.filter P pre = gpre /\ List.filter P post = gpost.
Proof.
  induction l as [|x l IH]; intros gpre r gpost; simpl.
  - by destruct gpre.
  - destruct (P x) eqn:Hx.
    + destruct gpre as [|g gpre]; simpl.
      * intros [= -> Hl]. exists [], l. by repeat split.
      * intros [= -> Hl]. destruct (IH _ _ _ Hl) as (pre & post & -> & <- & <-).
        exists (g :: pre), post. simpl. by rewrite Hx.
    + intros Hl. destruct (IH _ _ _ Hl) as (pre & post & -> & <- & <-).
      exists (x :: pre), post. simpl. by rewrite Hx.
Qed.

Lemma in_group_true (k : str) (d : doc) :
  in_group k d = true <-> lang_key d = k.
Proof. unfold in_group, str_eqb. by rewrite bool_decide_eq_true. Qed.

(** The choice made in one language group. *)
Lemma latest_of_group (docs : list doc) (k : str) (ds : list doc) :
  ds <> [] -> ds = List.filter (in_group k) docs ->
  exists r rest,
    sorted_newest_first ds = r :: rest
    /\ lang_key r = k /\ first_newest_of_language docs r.
Proof.
  intros Hne Hds.
  destruct (sorted_newest_first_head ds Hne)
    as (r & rest & gpre & gpost & Hsort & Hsplit & Hpre & Hpost).
  assert (Hr : lang_key r = k).
  { apply in_group_true.
    assert (Hin : In r (List.filter (in_group k) docs))
      by (rewrite <- Hds, Hsplit; apply in_app_iff; right; by left).
    by apply filter_In in Hin as [_ ?]. }
  exists r, rest. split; [done|]. split; [done|].
  rewrite Hsplit in Hds. symmetry in Hds.
  destruct (filter_split _ _ _ _ _ Hds) as (pre & post & -> & <- & <-).
  exists pre, post. split; [done|]. split.
  - intros d Hd Hk. apply Hpre, filter_In. split; [done|].
    apply in_group_true. congruence.
  - intros d Hd Hk. apply Hpost, filter_In. split; [done|].
    apply in_group_true. congruence.
Qed.

Lemma latest_of_groups_spec (docs : list doc) (g : list (str * list doc)) :
  (forall k ds, In (k, ds) g ->
     ds <> [] /\ ds = List.filter (in_group k) docs) ->
  List.map lang_key (latest_of_groups g) = List.map fst g
  /\ forall r, In r (latest_of_groups g) -> first_newest_of_language docs r.
Proof.
  induction g as [|[k ds] g IH]; intros Hent; [by split|].
  destruct IH as [IHkeys IHspec].
  { intros k' ds' Hin. apply Hent. by right. }
  destruct (Hent k ds (or_introl eq_refl)) as [Hne Hds].
  destruct (latest_of_group docs k ds Hne Hds) as (r & rest & Hsort & Hr & Hspec).
  unfold latest_of_groups in *. cbn [flat_map snd]. rewrite Hsort. simpl.
  split.
  - by rewrite Hr, IHkeys.
  - intros r' [<-|Hr']; auto.
Qed.

(** The document picked for a language is not older than any other of
    that language. *)
Lemma first_newest_is_max (docs : list doc) (r : doc) :
  first_newest_of_language docs r ->
  forall d, In d docs -> lang_key d = lang_key r ->
  str_ltb (date_key r) (date_key d) = false.
Proof.
  intros (pre & post & -> & Hpre & Hpost) d Hd Hk.
  apply in_app_or in Hd as [Hd|[<-|Hd]].
  - destruct (str_ltb (date_key r) (date_key d)) eqn:Hlater; [|done].
    pose proof (str_ltb_trans _ _ _ (Hpre d Hd Hk) Hlater) as Hself.
    by rewrite str_ltb_irrefl in Hself.
  - apply str_ltb_irrefl.
  - by apply Hpost.
Qed.

End LatestFacts.

(** C6. With [latest_only] off the recency step returns its input. With
    it on, the step (which [process_project] runs on the result of the
    language step) groups the documents by their [lang] field lower-cased
    ("xx" where it is missing) and keeps exactly one document per group,
    the groups in order of first appearance.  The one kept is the newest of
    its group, and of several equally new ones the first in the input.
    Dates are compared as the strings stored in [docdt] ("0000-00-00" where
    it is missing), by code points; for dates written [YYYY-MM-DD], with or
    without a time after them, that is the order of the calendar, so that
    no document of the group has a later day than the one kept.  Below,
    with the ASCII tables: English, German and French documents give one
    document per language; of the English documents of 2020-01-01 and
    2021-06-15 the second is kept, in either order; of two documents of the
    same language and date the first is kept; a tag in capitals falls in
    the group of the small letters; a document without tag falls in the
    group "xx"; and the two steps in a row. *)
Theorem C6_latest_per_language :
  (forall (U : Unicode) (self : downloader) (docs : list doc),
     let tag := fun d : doc => str_lower (get (lang d) (u "xx")) in
     let date := fun d : doc => get (docdt d) (u "0000-00-00") in
     (latest_only self = false -> select_latest_documents self docs = docs)
     /\ (latest_only self = true ->
         let latest := select_latest_documents self docs in
         select self docs =
           select_latest_documents self
             (select_documents_by_language self docs)
         /\ NoDup (List.map tag latest)
         /\ (forall d, In d docs -> In (tag d) (List.map tag latest))
         /\ (forall r, In r latest ->
             (exists pre post,
                docs = pre ++ r :: post
                /\ (forall d, In d pre -> tag d = tag r ->
                      str_ltb (date d) (date r) = true)
                /\ (forall d, In d post -> tag d = tag r ->
                      str_ltb (date r) (date d) = false))
             /\ (forall d y m dd y' m' d' s s',
                   In d docs -> tag d = tag r ->
                   docdt r = Some (iso_date y m dd ++ s) ->
                   docdt d = Some (iso_date y' m' d' ++ s') ->
                   calendar y m dd -> calendar y' m' d' ->
                   ~ date_before (y, m, dd) (y', m', d')))))
  /\ select_latest_documents (U := ascii_tables) SelectionExamples.latest_mode
       [SelectionExamples.english_2020; SelectionExamples.german;
        SelectionExamples.english_2021; SelectionCases.french;
        SelectionCases.german_2022]
     = [SelectionExamples.english_2021; SelectionCases.german_2022;
        SelectionCases.french]
  /\ select_latest_documents (U := ascii_tables) SelectionExamples.latest_mode
       [SelectionExamples.english_2020; SelectionExamples.english_2021]
     = [SelectionExamples.english_2021]
  /\ select_latest_documents (U := ascii_tables) SelectionExamples.latest_mode
       [SelectionExamples.english_2021; SelectionExamples.english_2020]
     = [SelectionExamples.english_2021]
  /\ select_latest_documents (U := ascii_tables) SelectionExamples.latest_mode
       [SelectionCases.report "R1" "en" "2020-01-01";
        SelectionCases.report "R2" "en" "2020-01-01";
        SelectionCases.report "R3" "en" "2019-12-31"]
     = [SelectionCases.report "R1" "en" "2020-01-01"]
  /\ select_latest_documents (U := ascii_tables) SelectionExamples.latest_mode
       [SelectionCases.english_upper; SelectionExamples.english_2020]
     = [SelectionExamples.english_2020]
  /\ select_latest_documents (U := ascii_tables) SelectionExamples.latest_mode
       [SelectionCases.untagged; SelectionCases.report "R9" "xx" "2030-01-01";
        SelectionExamples.german]
     = [SelectionCases.report "R9" "xx" "2030-01-01"; SelectionExamples.german]
  /\ select (U := ascii_tables) SelectionCases.latest_all_mode
       [SelectionExamples.german; SelectionExamples.english_2020;
        SelectionCases.german_2022; SelectionExamples.english_2021]
     = [SelectionCases.german_2022; SelectionExamples.english_2021]
  /\ select (U := ascii_tables) SelectionExamples.latest_mode
       [SelectionExamples.german; SelectionExamples.english_2020;
        SelectionCases.german_2022; SelectionExamples.english_2021]
     = [SelectionExamples.english_2021].
Proof.
  split; [|by vm_compute].
  intros U self docs tag date. unfold select, select_latest_documents. split.
  - by intros ->.
  - intros ->. simpl negb. cbv iota. split; [reflexivity|].
    destruct (group_by_lang_grouped docs) as (Hnd & Hent & Hcov).
    destruct (latest_of_groups_spec docs _ Hent) as [Hkeys Hspec].
    change tag with lang_key. rewrite Hkeys.
    split; [done|]. split; [done|].
    intros r Hr. split; [exact (Hspec r Hr)|].
    intros d y m dd y' m' d' s s' Hd Htag Hdr Hdd Hc Hc' Hbefore.
    pose proof (first_newest_is_max docs r (Hspec r Hr) d Hd Htag) as Hmax.
    unfold date_key in Hmax. rewrite Hdr, Hdd in Hmax. cbn [get] in Hmax.
    assert (Hlater : str_ltb (iso_date y m dd ++ s) (iso_date y' m' d' ++ s')
                     = true) by (apply iso_date_order; auto).
    congruence.
Qed.

(** English, German and French documents with [latest_only]: one per
    language, the newer of the two English ones. *)
Lemma C6_latest_per_language_witness :
  select_latest_documents (U := ascii_tables) SelectionExamples.latest_mode
    [SelectionExamples.english_2020; SelectionExamples.german;
     SelectionExamples.english_2021; SelectionCases.french]
  = [SelectionExamples.english_2021; SelectionExamples.german;
     SelectionCases.french]
  /\ NoDup (List.map (fun d => str_lower (Unicode := ascii_tables)
                                 (get (lang d) (u "xx")))
              (select_latest_documents (U := ascii_tables)
                 SelectionExamples.latest_mode
                 [SelectionExamples.english_2020; SelectionExamples.german;
                  SelectionExamples.english_2021; SelectionCases.french]))
  /\ ~ date_before (2021, 6, 15) (2020, 1, 1).
Proof.
  assert (Hresult :
    select_latest_documents (U := ascii_tables) SelectionExamples.latest_mode
      [SelectionExamples.english_2020; SelectionExamples.german;
       SelectionExamples.english_2021; SelectionCases.french]
    = [SelectionExamples.english_2021; SelectionExamples.german;
       SelectionCases.french]) by (vm_compute; reflexivity).
  pose proof C6_latest_per_language as [Hgeneral _].
  destruct (Hgeneral ascii_tables SelectionExamples.latest_mode
              [SelectionExamples.english_2020; SelectionExamples.german;
               SelectionExamples.english_2021; SelectionCases.french])
    as [_ Hlatest].
  destruct (Hlatest eq_refl) as (_ & Hnodup & _ & Hnewest).
  split; [exact Hresult|]. split; [exact Hnodup|].
  destruct (Hnewest SelectionExamples.english_2021) as [_ Hcalendar].
  { rewrite Hresult. by left. }
  apply (Hcalendar SelectionExamples.english_2020 2021 6 15 2020 1 1 [] []).
  - by left.
  - reflexivity.
  - reflexivity.
  - reflexivity.
  - unfold calendar. lia.
  - unfold calendar. lia.
Defined.

(** ** The per-project driver *)

Section ProjectFacts.
Context {U : Unicode}.
Variable net : nat -> request -> get_outcome.
Variable self : downloader.

Lemma select_nil : select self [] = [].
Proof.
  unfold select, select_documents_by_language, select_latest_documents.
  simpl. by destruct (str_eqb _ _), (latest_only self).
Qed.

Lemma group_add_length (k : str) (d : doc) (g : list (str * list doc)) :
  (length (group_add k d g) <= S (length g))%nat.
Proof.
  induction g as [|[k0 ds0] g IH]; simpl; [lia|].
  destruct (str_eqb k0 k); simpl; lia.
Qed.

Lemma group_fold_length (docs : list doc) :
  forall g,
  (length (fold_left (fun by_lang d => group_add (lang_key d) d by_lang)
             docs g) <= length g + length docs)%nat.
Proof.
  induction docs as [|d docs IH]; intros g; simpl; [lia|].
  specialize (IH (group_add (lang_key d) d g)).
  pose proof (group_add_length (lang_key d) d g). lia.
Qed.

Lemma latest_of_groups_length (g : list (str * list doc)) :
  (length (latest_of_groups g) <= length g)%nat.
Proof.
  induction g as [|[k ds] g IH]; [done|].
  unfold latest_of_groups in *. cbn [flat_map snd].
  rewrite length_app. destruct (sorted_newest_first ds); simpl; lia.
Qed.

(** Selection never adds documents. *)
Lemma select_length (docs : list doc) :
  (length (select self docs) <= length docs)%nat.
Proof.
  assert (Hlang : (length (select_documents_by_language self docs)
                   <= length docs)%nat).
  { unfold select_documents_by_language.
    destruct (str_eqb _ _); [done|].
    pose proof (List.filter_length_le is_english docs) as Hle.
    destruct (List.filter is_english docs); [|done].
    destruct docs; simpl; lia. }
  unfold select. destruct (latest_only self) eqn:Hlatest; [|done].
  unfold select_latest_documents. rewrite Hlatest. simpl negb. cbv iota.
  etrans; [apply latest_of_groups_length|].
  etrans; [apply (group_fold_length _ [])|]. simpl. done.
Qed.

(** The paths reported by the download loop are those of all the
    documents it was given, in order, whatever the downloads did. *)
Lemma download_selected_paths (selected : list doc) (t : doc_type)
      (pid country name : str) :
  forall w,
  fst (download_selected net self selected t pid country name w) =
  List.map (fun d => _get_document_path self d t pid country name) selected.
Proof.
  induction selected as [|d rest IH]; intros w; [reflexivity|].
  cbn [download_selected].
  destruct (_download_document _ _ _ _ _ _ _ _) as [[[ok st] h] w1].
  specialize (IH (with_stats (count_download ok st) w1)).
  destruct (download_selected _ _ _ _ _ _ _ _) as [paths w2].
  simpl in *. by rewrite IH.
Qed.

Lemma process_type_paths (fd : filtered) (t : doc_type)
      (pid country name : str) (w : world) :
  fst (process_type net self fd t pid country name w) =
  List.map (fun d => _get_document_path self d t pid country name)
    (select self (by_type fd t)).
Proof.
  unfold process_type. destruct (by_type fd t) as [|d ds] eqn:Hdocs.
  - by rewrite select_nil.
  - apply download_selected_paths.
Qed.

(** What [process_project] reports once the fetch has returned [docs]. *)
Lemma process_project_summary (fuel : nat) (pid country name : str)
      (w w1 : world) (docs : list doc) :
  get_project_documents net fuel pid w = Some (docs, w1) ->
  exists w2,
    process_project net self fuel pid country name w =
    Some (_create_project_summary pid country name
            (0 <? length (List.filter (is_type PID) docs))%nat
            (0 <? length (List.filter (is_type PAD) docs))%nat
            (length (List.filter (is_type PID) docs))
            (length (List.filter (is_type PAD) docs))
            (List.map (fun d => _get_document_path self d PID pid country name)
               (select self (List.filter (is_type PID) docs)))
            (List.map (fun d => _get_document_path self d PAD pid country name)
               (select self (List.filter (is_type PAD) docs))),
          w2).
Proof.
  intros Hfetch. unfold process_project. rewrite Hfetch.
  destruct docs as [|d docs].
  - exists w1. simpl. by rewrite select_nil.
  - pose proof (process_type_paths (filter_documents (d :: docs)) PID
                  pid country name w1) as Hpid.
    destruct (process_type _ _ _ PID _ _ _ _) as [pid_paths w2].
    pose proof (process_type_paths (filter_documents (d :: docs)) PAD
                  pid country name w2) as Hpad.
    destruct (process_type _ _ _ PAD _ _ _ _) as [pad_paths w3].
    simpl in Hpid, Hpad. subst pid_paths pad_paths.
    rewrite <- (filter_documents_by_type (d :: docs) PID).
    rewrite <- (filter_documents_by_type (d :: docs) PAD).
    eexists. reflexivity.
Qed.

End ProjectFacts.

(** C7. The counts and flags of a project's summary are those of the
    classified documents of each type among all the documents fetched,
    taken before any selection; selection can only remove documents, and
    it does: a project with an English and a French PID processed with
    languages "en" reports two PIDs and downloads one. *)
Theorem C7_counts_before_selection :
  (forall (U : Unicode) net self fuel pid country name w docs w1,
     get_project_documents net fuel pid w = Some (docs, w1) ->
     exists s w2,
       process_project net self fuel pid country name w = Some (s, w2)
       /\ pid_count s = length (List.filter (is_type PID) docs)
       /\ pad_count s = length (List.filter (is_type PAD) docs)
       /\ has_pid s = (0 <? pid_count s)%nat
       /\ has_pad s = (0 <? pad_count s)%nat
       /\ (length (select self (List.filter (is_type PID) docs))
           <= pid_count s)%nat
       /\ (length (select self (List.filter (is_type PAD) docs))
           <= pad_count s)%nat)
  /\ match process_project (U := ascii_tables) ProjectExamples.two_pids
             Examples.english_mode 1 Examples.proid ProjectExamples.country
             ProjectExamples.title Examples.empty_world with
     | Some (s, w) =>
         pid_count s = 2%nat /\ length (manifest_data w) = 1%nat
         /\ List.map row_status (manifest_data w) = [Downloaded]
     | None => False
     end.
Proof.
  split.
  - intros U net self fuel pid country name w docs w1 Hfetch.
    destruct (process_project_summary net self fuel pid country name w w1
                docs Hfetch) as [w2 ->].
    eexists _, w2. split; [reflexivity|]. simpl.
    repeat split; try reflexivity; apply select_length.
  - vm_compute. repeat split; reflexivity.
Qed.

Lemma C7_counts_before_selection_witness :
  exists s w,
    process_project (U := ascii_tables) ProjectExamples.two_pids
      Examples.english_mode 1 Examples.proid ProjectExamples.country
      ProjectExamples.title Examples.empty_world = Some (s, w)
    /\ pid_count s = 2%nat /\ has_pid s = true
    /\ pad_count s = 0%nat /\ has_pad s = false.
Proof.
  destruct C7_counts_before_selection as [Hcount _].
  destruct (Hcount ascii_tables ProjectExamples.two_pids Examples.english_mode
              1%nat Examples.proid ProjectExamples.country
              ProjectExamples.title Examples.empty_world
              [ProjectExamples.pid_in "en"; ProjectExamples.pid_in "fr"]
              (after Examples.empty_world [ApiQuery Examples.proid 0] []))
    as (s & w & Hrun & Hpid & Hpad & Hhas_pid & Hhas_pad & _).
  { vm_compute; reflexivity. }
  exists s, w. split; [exact Hrun|].
  rewrite Hhas_pid, Hhas_pad, Hpid, Hpad. vm_compute. by repeat split.
Defined.

Section SummaryPaths.
Context {U : Unicode}.
Variable net : nat -> request -> get_outcome.
Variable self : downloader.

(** C8 (amended). The path fields of a project's summary are the
    semicolon-joined storage paths of all the documents selected for the
    type, in processing order: a path is listed for every selected
    document, whether its file was downloaded, already there, not
    fetched (dry run, no URL) or failed. *)
Theorem C8_paths_of_selected (fuel : nat) (pid country name : str)
        (w w1 : world) (docs : list doc) :
  get_project_documents net fuel pid w = Some (docs, w1) ->
  exists s w2,
    process_project net self fuel pid country name w = Some (s, w2)
    /\ pid_paths s =
       join (u ";")
         (List.map (fun d => _get_document_path self d PID pid country name)
            (select self (List.filter (is_type PID) docs)))
    /\ pad_paths s =
       join (u ";")
         (List.map (fun d => _get_document_path self d PAD pid country name)
            (select self (List.filter (is_type PAD) docs))).
Proof.
  intros Hfetch.
  destruct (process_project_summary net self fuel pid country name w w1
              docs Hfetch) as [w2 ->].
  eexists _, w2. by repeat split.
Qed.

End SummaryPaths.

(** A file request answered HTTP 404: nothing is written and the manifest
    row says [failed], yet the summary lists the path. *)
Lemma C8_counterexample :
  match process_project (U := ascii_tables) ProjectExamples.file_missing
          Examples.english_mode 1 Examples.proid ProjectExamples.country
          ProjectExamples.title Examples.empty_world with
  | Some (s, w) =>
      pid_paths s = ProjectExamples.pid_path
      /\ files w !! ProjectExamples.pid_path = None
      /\ List.map row_status (manifest_data w) = [Failed]
      /\ List.map row_saved_path (manifest_data w) = [ProjectExamples.pid_path]
  | None => False
  end.
Proof. vm_compute. by repeat split. Qed.

Lemma C8_paths_of_selected_witness :
  exists s w,
    process_project (U := ascii_tables) ProjectExamples.file_missing
      Examples.english_mode 1 Examples.proid ProjectExamples.country
      ProjectExamples.title Examples.empty_world = Some (s, w)
    /\ pid_paths s = ProjectExamples.pid_path
    /\ pad_paths s = [].
Proof.
  destruct (C8_paths_of_selected (U := ascii_tables)
              ProjectExamples.file_missing Examples.english_mode
              1%nat Examples.proid ProjectExamples.country
              ProjectExamples.title Examples.empty_world
              (after Examples.empty_world [ApiQuery Examples.proid 0] [])
              [ProjectExamples.pid_in "en"])
    as (s & w & Hrun & Hpid & Hpad).
  { vm_compute; reflexivity. }
  exists s, w. split; [exact Hrun|].
  rewrite Hpid, Hpad. vm_compute. by split.
Defined.

(** ** Slugs *)

Section SlugFacts.
Context {U : Unicode}.

Lemma rstrip_prefix (c : char) (s : str) :
  exists t, s = rstrip c s ++ t.
Proof.
  induction s as [|x s [t IH]]; [by exists []|]. simpl.
  destruct (rstrip c s) as [|y r].
  - destruct (x =? c); [by exists (x :: s)|]. exists s. reflexivity.
  - exists t. simpl in *. by rewrite <- IH.
Qed.

Lemma rstrip_last (c : char) (s : str) :
  forall l x, rstrip c s = l ++ [x] -> x <> c.
Proof.
  induction s as [|x0 s IH]; intros l x; simpl.
  - by destruct l.
  - destruct (rstrip c s) as [|y r].
    + destruct (N.eqb_spec x0 c) as [|Hne]; [by destruct l|].
      destruct l as [|a [|b l]]; intros [=]. by subst.
    + destruct l as [|a l]; [intros [=]|].
      intros [= -> Hrest]. by apply (IH l).
Qed.

Lemma lstrip_head (c : char) (s : str) :
  forall x l, lstrip c s = x :: l -> x <> c.
Proof.
  induction s as [|x0 s IH]; intros x l; simpl; [done|].
  destruct (N.eqb_spec x0 c) as [|Hne]; [apply IH|].
  by intros [= -> _].
Qed.

Lemma lstrip_suffix (c : char) (s : str) :
  exists t, s = t ++ lstrip c s.
Proof.
  induction s as [|x s [t IH]]; [by exists []|]. simpl.
  destruct (x =? c); [|by exists []].
  exists (x :: t). simpl. by rewrite <- IH.
Qed.

(** After the two substitutions only word characters and hyphens remain. *)
Lemma sub_runs_chars (s : str) :
  forall in_run,
  Forall (fun c => c = hyphen \/ is_word c = true)
         (sub_runs in_run (List.filter slug_keeps s)).
Proof.
  induction s as [|c s IH]; intros in_run; simpl; [constructor|].
  destruct (slug_keeps c) eqn:Hkeep; [|apply IH]. simpl.
  destruct (slug_sep c) eqn:Hsep.
  - destruct in_run; [apply IH|]. constructor; [by left|apply IH].
  - constructor; [|apply IH]. right.
    unfold slug_keeps, slug_sep in *.
    destruct (is_word c), (is_space c), (c =? hyphen); done.
Qed.

(** What holds of every slug: at most [max_length] characters, each one a
    word character or a hyphen, and no hyphen at either end. *)
Lemma slug_max_shape (max_length : nat) (text : str) :
  (length (slug_max max_length text) <= max_length)%nat
  /\ Forall (fun c => c = hyphen \/ is_word c = true)
            (slug_max max_length text)
  /\ (forall x l, slug_max max_length text = x :: l -> x <> hyphen)
  /\ (forall l x, slug_max max_length text = l ++ [x] -> x <> hyphen).
Proof.
  unfold slug_max, strip.
  set (body := sub_runs false
                 (List.filter slug_keeps (str_lower (normalize_nfkd text)))).
  assert (Hbody : Forall (fun c => c = hyphen \/ is_word c = true) body)
    by apply sub_runs_chars.
  destruct (lstrip_suffix hyphen body) as [t0 Ht0].
  destruct (rstrip_prefix hyphen (lstrip hyphen body)) as [t1 Ht1].
  set (stripped := rstrip hyphen (lstrip hyphen body)) in *.
  assert (Hstripped : Forall (fun c => c = hyphen \/ is_word c = true)
                             stripped).
  { rewrite Ht0, Ht1 in Hbody.
    by apply Forall_app in Hbody as [_ [? _]%Forall_app]. }
  assert (Hhead : forall x l, stripped = x :: l -> x <> hyphen).
  { intros x l Hx. rewrite Hx in Ht1. by apply (lstrip_head _ _ _ _ Ht1). }
  destruct (Nat.ltb_spec max_length (length stripped)) as [Hlong|Hshort].
  - destruct (rstrip_prefix hyphen (firstn max_length stripped)) as [t2 Ht2].
    set (cut := rstrip hyphen (firstn max_length stripped)) in *.
    assert (Hcut : stripped = cut ++ t2 ++ skipn max_length stripped)
      by (rewrite app_assoc, <- Ht2; symmetry; apply firstn_skipn).
    split; [|split; [|split]].
    + assert (length (firstn max_length stripped) <= max_length)%nat
        by apply firstn_le_length.
      rewrite Ht2, length_app in H. lia.
    + rewrite Hcut in Hstripped. by apply Forall_app in Hstripped as [? _].
    + intros x l Hx. rewrite Hx in Hcut. by apply (Hhead _ _ Hcut).
    + apply rstrip_last.
  - split; [done|]. split; [done|]. split; [done|]. apply rstrip_last.
Qed.

End SlugFacts.

(** C9. Punctuation is deleted, not turned into a hyphen, and an
    underscore is kept: the words on the two sides of a slash or a full
    stop run together. *)
Theorem C9_slug_drops_punctuation :
  slug (U := ascii_tables) (u "Water/Sanitation (Phase 2)")
  = u "watersanitation-phase-2"
  /\ slug (U := ascii_tables) (u "a.b") = u "ab"
  /\ slug (U := ascii_tables) (u "a_b") = u "a_b"
  /\ slug (U := ascii_tables) (u "Special Characters: @#$%^&*()")
     = u "special-characters".
Proof. vm_compute. by repeat split. Qed.

(** * Further properties of the program *)

(** ** More on slugs *)

Section SlugShape.
Context {U : Unicode}.

Lemma hyphens_apart_tail (x : char) (s : str) :
  hyphens_apart (x :: s) -> hyphens_apart s.
Proof. destruct s; simpl; tauto. Qed.

Lemma hyphens_apart_suffix (a b : str) :
  hyphens_apart (a ++ b) -> hyphens_apart b.
Proof.
  induction a as [|x a IH]; [done|]. intros H. apply IH.
  by apply (hyphens_apart_tail x).
Qed.

Lemma hyphens_apart_prefix (a b : str) :
  hyphens_apart (a ++ b) -> hyphens_apart a.
Proof.
  induction a as [|x a IH]; [done|]. intros H.
  pose proof (hyphens_apart_tail _ _ H) as Htail.
  destruct a as [|y a]; [done|]. simpl in *. split; [tauto|].
  apply IH. tauto.
Qed.

Lemma sub_runs_apart (s : str) :
  forall in_run,
  hyphens_apart (sub_runs in_run s)
  /\ (in_run = true -> forall x l, sub_runs in_run s = x :: l -> x <> hyphen).
Proof.
  induction s as [|c s IH]; intros in_run; [by split|]. simpl.
  destruct (slug_sep c) eqn:Hsep.
  - destruct in_run.
    + apply IH.
    + split; [|done]. destruct (IH true) as [Hapart Hhead].
      destruct (sub_runs true s) as [|y r] eqn:Hr; [done|].
      split; [|done]. intros _. by apply (Hhead eq_refl y r).
  - assert (Hc : c <> hyphen).
    { intros ->. unfold slug_sep in Hsep. by rewrite N.eqb_refl in Hsep. }
    destruct (IH false) as [Hapart _]. split.
    + destruct (sub_runs false s) as [|y r] eqn:Hr; [done|]. by split.
    + by intros _ x l [= <- _].
Qed.

(** A slug never has two hyphens in a row. *)
Lemma slug_max_no_double_hyphen (max_length : nat) (text : str) :
  forall l1 l2, slug_max max_length text <> l1 ++ hyphen :: hyphen :: l2.
Proof.
  assert (Hslug : hyphens_apart (slug_max max_length text)).
  { unfold slug_max, strip.
    set (body := sub_runs false
                   (List.filter slug_keeps (str_lower (normalize_nfkd text)))).
    assert (Hbody : hyphens_apart body) by apply sub_runs_apart.
    destruct (lstrip_suffix hyphen body) as [t0 Ht0].
    destruct (rstrip_prefix hyphen (lstrip hyphen body)) as [t1 Ht1].
    set (stripped := rstrip hyphen (lstrip hyphen body)) in *.
    assert (Hstripped : hyphens_apart stripped).
    { rewrite Ht0 in Hbody. apply hyphens_apart_suffix in Hbody.
      rewrite Ht1 in Hbody. by apply hyphens_apart_prefix in Hbody. }
    destruct (max_length <? length stripped)%nat; [|done].
    destruct (rstrip_prefix hyphen (firstn max_length stripped)) as [t2 Ht2].
    rewrite <- (firstn_skipn max_length stripped), Ht2 in Hstripped.
    by do 2 apply hyphens_apart_prefix in Hstripped. }
  intros l1 l2 Heq. rewrite Heq in Hslug.
  apply hyphens_apart_suffix in Hslug. simpl in Hslug. tauto.
Qed.

(** X1. A slug has at most 120 characters, each of them a word character
    or a hyphen; it neither starts nor ends with a hyphen and never has two
    hyphens in a row. *)
Theorem slug_well_formed (text : str) :
  (length (slug text) <= 120)%nat
  /\ Forall (fun c => c = hyphen \/ is_word c = true) (slug text)
  /\ (forall x l, slug text = x :: l -> x <> hyphen)
  /\ (forall l x, slug text = l ++ [x] -> x <> hyphen)
  /\ (forall l1 l2, slug text <> l1 ++ hyphen :: hyphen :: l2).
Proof.
  destruct (slug_max_shape 120 text) as (Hlen & Hchars & Hhead & Hlast).
  repeat split; try done. apply slug_max_no_double_hyphen.
Qed.

(** Whatever holds of the hyphen and of every character of the lowered,
    normalized text holds of every character of the slug. *)
Lemma slug_max_forall (P : char -> Prop) (max_length : nat) (text : str) :
  P hyphen ->
  Forall P (str_lower (normalize_nfkd text)) ->
  Forall P (slug_max max_length text).
Proof.
  intros Hhyphen Htext. unfold slug_max, strip.
  assert (Hsub : forall s b, Forall P s -> Forall P (sub_runs b s)).
  { induction s as [|c s IH]; intros b Hs; [constructor|]. simpl.
    apply Forall_cons in Hs as [Hc Hs].
    destruct (slug_sep c), b; try constructor; auto. }
  set (body := sub_runs false
                 (List.filter slug_keeps (str_lower (normalize_nfkd text)))).
  assert (Hbody : Forall P body).
  { apply Hsub. apply List.Forall_forall. intros c [Hc _]%filter_In.
    by apply (proj1 (List.Forall_forall _ _) Htext). }
  destruct (lstrip_suffix hyphen body) as [t0 Ht0].
  destruct (rstrip_prefix hyphen (lstrip hyphen body)) as [t1 Ht1].
  set (stripped := rstrip hyphen (lstrip hyphen body)) in *.
  assert (Hstripped : Forall P stripped).
  { rewrite Ht0, Ht1 in Hbody.
    by apply Forall_app in Hbody as [_ [? _]%Forall_app]. }
  destruct (max_length <? length stripped)%nat; [|done].
  destruct (rstrip_prefix hyphen (firstn max_length stripped)) as [t2 Ht2].
  rewrite <- (firstn_skipn max_length stripped), Ht2 in Hstripped.
  by apply Forall_app in Hstripped as [[? _]%Forall_app _].
Qed.

Lemma lstrip_id (c : char) (s : str) :
  (forall x l, s = x :: l -> x <> c) -> lstrip c s = s.
Proof.
  destruct s as [|x s]; [done|]. intros H. simpl.
  destruct (N.eqb_spec x c) as [->|]; [|done]. by destruct (H c s).
Qed.

Lemma rstrip_id (c : char) (s : str) :
  (forall l x, s = l ++ [x] -> x <> c) -> rstrip c s = s.
Proof.
  induction s as [|x0 s IH]; [done|]. intros H. simpl.
  rewrite IH.
  - destruct s as [|y s]; [|done].
    destruct (N.eqb_spec x0 c) as [->|]; [|done]. by destruct (H [] c).
  - intros l x ->. by apply (H (x0 :: l) x).
Qed.

Lemma sub_runs_id (s : str) :
  forall in_run,
  hyphens_apart s ->
  Forall (fun c => c = hyphen \/ slug_sep c = false) s ->
  (in_run = true -> forall x l, s = x :: l -> x <> hyphen) ->
  sub_runs in_run s = s.
Proof.
  induction s as [|c s IH]; intros in_run Hapart Hchars Hhead; [done|].
  apply Forall_cons in Hchars as [Hc Hchars]. simpl.
  pose proof (hyphens_apart_tail _ _ Hapart) as Htail.
  destruct (slug_sep c) eqn:Hsep.
  - destruct Hc as [->|]; [|done].
    destruct in_run; [by destruct (Hhead eq_refl hyphen s)|].
    f_equal. apply IH; [done..|].
    intros _ x l ->. simpl in Hapart. by apply Hapart.
  - f_equal. by apply IH.
Qed.

End SlugShape.

Lemma ascii_lower_char_idem (c : char) :
  AsciiTables.lower_char (AsciiTables.lower_char c) = AsciiTables.lower_char c.
Proof.
  unfold AsciiTables.lower_char.
  destruct (N.leb_spec 65 c), (N.leb_spec c 90); simpl;
    repeat match goal with
           | |- context [N.leb ?a ?b] => destruct (N.leb_spec a b); simpl
           end; try reflexivity; lia.
Qed.

Lemma ascii_word_not_sep (c : char) :
  AsciiTables.word c = true -> slug_sep (U := ascii_tables) c = false.
Proof.
  unfold slug_sep, AsciiTables.word, hyphen; simpl.
  unfold AsciiTables.space. intros H.
  repeat match goal with
         | |- context [N.leb ?a ?b] => destruct (N.leb_spec a b)
         | |- context [N.eqb ?a ?b] => destruct (N.eqb_spec a b)
         | H : context [N.leb ?a ?b] |- _ => destruct (N.leb_spec a b)
         | H : context [N.eqb ?a ?b] |- _ => destruct (N.eqb_spec a b)
         end; simpl in *; try done; lia.
Qed.

(** X2. On the ASCII tables a slug is its own slug: slugging twice gives
    what slugging once gives. *)
Theorem slug_idempotent_ascii (text : str) :
  slug (U := ascii_tables) (slug (U := ascii_tables) text)
  = slug (U := ascii_tables) text.
Proof.
  set (r := slug (U := ascii_tables) text).
  destruct (slug_max_shape (U := ascii_tables) 120 text)
    as (Hlen & Hchars & Hhead & Hlast).
  fold (slug (U := ascii_tables) text) in Hlen, Hchars, Hhead, Hlast.
  fold r in Hlen, Hchars, Hhead, Hlast.
  assert (Hlower : AsciiTables.lower r = r).
  { assert (Hfix : Forall (fun c => AsciiTables.lower_char c = c) r).
    { apply (slug_max_forall (U := ascii_tables)); [done|]. simpl.
      unfold AsciiTables.lower. apply List.Forall_forall.
      intros c (x & <- & _)%in_map_iff. apply ascii_lower_char_idem. }
    unfold AsciiTables.lower. clear -Hfix.
    induction Hfix as [|c l Hc _ IH]; [done|]. simpl. by rewrite Hc, IH. }
  assert (Hkeep : List.filter (slug_keeps (U := ascii_tables)) r = r).
  { clear -Hchars. induction Hchars as [|c l Hc _ IH]; [done|]. simpl.
    rewrite IH. unfold slug_keeps.
    destruct Hc as [->|Hc]; [by rewrite N.eqb_refl, !orb_true_r|].
    by rewrite Hc. }
  assert (Hsub : sub_runs (U := ascii_tables) false r = r).
  { apply sub_runs_id; [|  |done].
    - pose proof (slug_max_no_double_hyphen (U := ascii_tables) 120 text)
        as Hno.
      fold (slug (U := ascii_tables) text) in Hno. fold r in Hno.
      clear -Hno. induction r as [|x [|y l] IH]; [done..|].
      split.
      + intros -> ->. by apply (Hno [] l).
      + apply IH. intros l1 l2 Heq. apply (Hno (x :: l1) l2).
        simpl. by rewrite Heq.
    - eapply Forall_impl; [exact Hchars|]. simpl.
      intros c [->|Hc]; [by left|right]. by apply ascii_word_not_sep. }
  unfold slug at 1, slug_max. simpl str_lower. simpl normalize_nfkd.
  rewrite Hlower, Hkeep, Hsub. unfold strip.
  rewrite (lstrip_id hyphen r Hhead), (rstrip_id hyphen r Hlast).
  destruct (Nat.ltb_spec 120 (length r)); [lia|done].
Qed.

(** ** More on classification *)

Section ClassifierMore.
Context {U : Unicode}.

Lemma filter_sublist (f : doc -> bool) (l : list doc) :
  sublist (List.filter f l) l.
Proof.
  induction l as [|d l IH]; simpl; [constructor|].
  destruct (f d); by constructor.
Qed.

Lemma filter_two_lengths (l : list doc) :
  (length (List.filter (is_type PID) l) + length (List.filter (is_type PAD) l)
   <= length l)%nat.
Proof.
  induction l as [|d l IH]; simpl; [lia|].
  destruct (is_type PID d) eqn:Hpid, (is_type PAD d) eqn:Hpad; simpl;
    try lia.
  unfold is_type in Hpid, Hpad.
  by destruct (detect_document_type d) as [[]|].
Qed.

(** X3. [filter_documents] splits the records by detected type: each of
    the two lists is the input with the records of another type, or of
    none, struck out, so that a record of the type stands in it as often as
    in the input and in input order; no record is in both lists, and
    records of neither type are dropped.  Below, with the ASCII tables: a
    PID record that comes twice is kept twice, and a record of neither type
    is in neither list. *)
Theorem filter_documents_partition (docs : list doc) :
  (forall t, by_type (filter_documents docs) t = List.filter (is_type t) docs)
  /\ (forall t d, is_type t d = true <-> detect_document_type d = Some t)
  /\ (forall d, In d (filtered_pid (filter_documents docs)) ->
                In d (filtered_pad (filter_documents docs)) -> False)
  /\ (length (filtered_pid (filter_documents docs))
      + length (filtered_pad (filter_documents docs)) <= length docs)%nat
  /\ filter_documents (U := ascii_tables)
       [Examples.sample_doc; SelectionExamples.german; Examples.sample_doc;
        mkDoc (Some (u "Procurement Plan")) None None None None None None;
        SelectionExamples.german]
     = mkFiltered [Examples.sample_doc; Examples.sample_doc]
                  [SelectionExamples.german; SelectionExamples.german].
Proof.
  assert (Htype : forall t d,
            is_type t d = true <-> detect_document_type d = Some t).
  { intros t d. unfold is_type.
    destruct (detect_document_type d) as [[]|], t; intuition congruence. }
  assert (Hiff : forall t d, In d (by_type (filter_documents docs) t)
                 <-> In d docs /\ detect_document_type d = Some t).
  { intros t d. by rewrite filter_documents_by_type, filter_In, Htype. }
  split; [|split; [exact Htype|split; [|split]]].
  - intros t. apply filter_documents_by_type.
  - intros d Hpid Hpad.
    apply (Hiff PID) in Hpid as [_ Hpid]. apply (Hiff PAD) in Hpad as [_ Hpad].
    congruence.
  - rewrite (filter_documents_by_type docs PID : filtered_pid _ = _).
    rewrite (filter_documents_by_type docs PAD : filtered_pad _ = _).
    apply filter_two_lengths.
  - by vm_compute.
Qed.

Lemma search_empty (p : pattern) : search (compiled p) [] = false.
Proof. destruct p; reflexivity. Qed.

(** X4. A record without a declared type whose name is missing, or is a
    dictionary without ['0'] or without ['docna'] under ['0'], has no
    type. *)
Theorem detect_without_fields (d : doc) :
  str_lower [] = [] ->
  docty d = None ->
  docna d = None \/ docna d = Some (DocnaDict None)
  \/ docna d = Some (DocnaDict (Some None)) ->
  detect_document_type d = None.
Proof.
  intros Hlower Hty Hna.
  assert (Hdocty : docty_text d = []) by (unfold docty_text; by rewrite Hty).
  assert (Hdocna : docna_text d = []).
  { unfold docna_text. by destruct Hna as [-> | [-> | ->]]. }
  unfold detect_document_type, detect_document_type_probes. cbv zeta.
  rewrite Hdocty, Hdocna. unfold or_else, search_field. cbn [fst snd].
  by rewrite (search_empty PidPattern), (search_empty PadPattern).
Qed.

End ClassifierMore.

Lemma detect_without_fields_witness :
  detect_document_type (U := ascii_tables)
    (mkDoc None (Some (DocnaDict (Some None))) None None None None None)
  = None.
Proof.
  apply (detect_without_fields (U := ascii_tables)); [reflexivity..|].
  right; right; reflexivity.
Defined.

(** ** More on the WDS client *)

Section ClientMore.
Variable net : nat -> request -> get_outcome.

Lemma not_retryable_responds (o : get_outcome) :
  retryable o = false -> exists r, o = Responds r.
Proof. destruct o as [|r]; [done|]. by exists r. Qed.

(** What a call does to the world, whatever the server answers. *)
Lemma call_attempts_effect (pid : str) (offset : N) (attempts : list nat) :
  forall w, attempts <> [] ->
  exists k d,
    (1 <= k <= length attempts)%nat /\ (d = k \/ S d = k)
    /\ snd (call_wds_api_attempts net attempts pid offset w)
       = after w (repeat (ApiQuery pid offset) k)
           (List.map delay_of (firstn d attempts)).
Proof.
  induction attempts as [|a rest IH]; intros w Hne; [done|].
  destruct (retryable (net (length (requests w)) (ApiQuery pid offset)))
    eqn:Hretry.
  - rewrite retry_step by done. destruct rest as [|b rest].
    + exists 1%nat, 1%nat. simpl. split; [lia|]. split; [by left|done].
    + destruct (IH (after w [ApiQuery pid offset] [delay_of a]))
        as (k & d & Hk & Hd & ->); [done|].
      exists (S k), (S d). simpl length in *. split; [lia|].
      split; [lia|]. by rewrite after_after.
  - destruct (not_retryable_responds _ Hretry) as [r Hr].
    rewrite Hr in Hretry. rewrite (final_step net a rest pid offset w r Hr Hretry).
    exists 1%nat, 0%nat. simpl. split; [lia|]. split; [by right|done].
Qed.

Lemma call_wds_api_effect (pid : str) (offset : N) (w : world) :
  exists k d,
    (1 <= k <= 3)%nat /\ (d = k \/ S d = k)
    /\ snd (call_wds_api net pid offset w)
       = after w (repeat (ApiQuery pid offset) k) (firstn d backoff).
Proof.
  destruct (call_attempts_effect pid offset (seq 0 max_retries) w)
    as (k & d & Hk & Hd & Heq); [done|].
  exists k, d. split; [exact Hk|]. split; [exact Hd|].
  unfold call_wds_api. rewrite Heq. by rewrite <- List.firstn_map.
Qed.

(** X5. One call of [call_wds_api] sends the same query at least once and
    at most three times, sleeps only between or after failed attempts (1,
    2 and 4 seconds, in this order), and changes nothing else: no file, no
    manifest row, no counter. *)
Theorem call_wds_api_at_most_three (pid : str) (offset : N) (w : world) :
  exists k d,
    (1 <= k <= 3)%nat /\ (d = k \/ S d = k)
    /\ requests (snd (call_wds_api net pid offset w))
       = requests w ++ repeat (ApiQuery pid offset) k
    /\ sleeps (snd (call_wds_api net pid offset w))
       = sleeps w ++ firstn d backoff
    /\ files (snd (call_wds_api net pid offset w)) = files w
    /\ manifest_data (snd (call_wds_api net pid offset w)) = manifest_data w
    /\ stats (snd (call_wds_api net pid offset w)) = stats w.
Proof.
  destruct (call_wds_api_effect pid offset w) as (k & d & Hk & Hd & ->).
  exists k, d. split; [exact Hk|]. split; [exact Hd|]. by repeat split.
Qed.

Lemma fetch_effect (pid : str) (fuel : nat) :
  forall acc offset w docs w',
  get_project_documents_from net fuel pid acc offset w = Some (docs, w') ->
  exists reqs delays more,
    w' = after w reqs delays /\ docs = acc ++ more
    /\ Forall (fun q => exists i : N, q = ApiQuery pid (offset + 200 * i)) reqs.
Proof.
  induction fuel as [|fuel IH]; intros acc offset w docs w'; [done|].
  cbn [get_project_documents_from].
  destruct (call_wds_api_effect pid offset w) as (k & d & _ & _ & Hcall).
  destruct (call_wds_api net pid offset w) as [j w1]. simpl in Hcall.
  assert (Hfirst :
    Forall (fun q => exists i : N, q = ApiQuery pid (offset + 200 * i))
           (repeat (ApiQuery pid offset) k)).
  { apply List.Forall_forall. intros q ->%repeat_spec. exists 0.
    f_equal. lia. }
  destruct (page_docs j) as [[|x page]|].
  - intros [= <- <-]. exists (repeat (ApiQuery pid offset) k), (firstn d backoff), [].
    by rewrite app_nil_r.
  - destruct (length (x :: page) <? 200)%nat.
    + intros [= <- <-].
      by exists (repeat (ApiQuery pid offset) k), (firstn d backoff), (x :: page).
    + intros Hrec.
      destruct (IH _ _ _ _ _ Hrec) as (reqs & delays & more & -> & -> & Hreqs).
      exists (repeat (ApiQuery pid offset) k ++ reqs),
             (firstn d backoff ++ delays), ((x :: page) ++ more).
      rewrite Hcall, after_after, <- app_assoc. split; [done|]. split; [done|].
      apply Forall_app. split; [done|].
      eapply Forall_impl; [exact Hreqs|]. simpl.
      intros q [i ->]. exists (i + 1). f_equal. lia.
  - intros [= <- <-]. exists (repeat (ApiQuery pid offset) k), (firstn d backoff), [].
    by rewrite app_nil_r.
Qed.

(** X6. Fetching the documents of a project only ever sends page requests
    for that project, at offsets that are multiples of 200, and sleeps; it
    writes no file, adds no manifest row and touches no counter. *)
Theorem fetch_only_queries (fuel : nat) (pid : str) (w w' : world)
        (docs : list doc) :
  get_project_documents net fuel pid w = Some (docs, w') ->
  (exists reqs, requests w' = requests w ++ reqs
                /\ Forall (is_page_request pid) reqs)
  /\ (exists delays, sleeps w' = sleeps w ++ delays)
  /\ files w' = files w
  /\ manifest_data w' = manifest_data w
  /\ stats w' = stats w.
Proof.
  intros Hfetch.
  destruct (fetch_effect pid fuel [] 0 w docs w' Hfetch)
    as (reqs & delays & more & -> & _ & Hreqs).
  split; [|by repeat split; try by exists delays].
  exists reqs. split; [done|]. eapply Forall_impl; [exact Hreqs|]. simpl.
  intros q [i ->]. by exists i.
Qed.

(** X7. If the server answers every page request with 200 records or
    more, the fetch loop never ends, however many iterations it is
    given. *)
Theorem fetch_never_ends (pid : str) (w : world) :
  (forall i, exists r,
     net (length (requests w) + i) (ApiQuery pid (200 * N.of_nat i))
     = Responds r
     /\ status_code r = 200%Z
     /\ (200 <= length (page_records (json r)))%nat) ->
  forall fuel, get_project_documents net fuel pid w = None.
Proof.
  intros Hnet fuel.
  exact (pagination_unbounded net pid fuel [] 0%nat w Hnet).
Qed.

Lemma truncated_from (pid : str) (pages : list (list doc)) :
  forall (acc : list doc) (k : nat) (w : world) (fuel : nat),
  Forall (fun page => 200 <= length page)%nat pages ->
  (forall i page, pages !! i = Some page ->
     exists r, net (length (requests w) + i)
                   (ApiQuery pid (200 * N.of_nat (k + i))) = Responds r
               /\ status_code r = 200%Z /\ page_records (json r) = page) ->
  (forall j, (j < 3)%nat ->
     retryable (net (length (requests w) + length pages + j)
                    (ApiQuery pid (200 * N.of_nat (k + length pages))))
     = true) ->
  (length pages < fuel)%nat ->
  get_project_documents_from net fuel pid acc (200 * N.of_nat k) w =
  Some (acc ++ concat pages,
        after w
          (List.map (fun i => ApiQuery pid (200 * N.of_nat i))
             (seq k (length pages))
           ++ repeat (ApiQuery pid (200 * N.of_nat (k + length pages))) 3)
          backoff).
Proof.
  induction pages as [|page pages IH];
    intros acc k w fuel Hfull Hnet Hdown Hfuel;
    (destruct fuel as [|fuel]; [simpl in Hfuel; lia|]).
  - simpl length in *. rewrite Nat.add_0_r in *.
    rewrite app_nil_r. apply soft_failure.
    unfold call_wds_api, max_retries.
    rewrite (attempts_exhausted net pid (200 * N.of_nat k) (seq 0 3) w).
    + reflexivity.
    + intros j Hj. specialize (Hdown j Hj).
      by rewrite Nat.add_0_r in Hdown.
  - destruct (Hnet 0%nat page eq_refl) as (r & Hr & Hst & Hrec).
    rewrite !Nat.add_0_r in Hr.
    apply Forall_cons in Hfull as [Hpage Hfull].
    cbn [get_project_documents_from].
    rewrite (call_wds_api_ok _ _ _ _ _ Hr Hst).
    unfold page_records in Hrec.
    destruct (page_docs (json r)) as [[|d ds]|]; simpl in Hrec; subst page;
      [simpl in Hpage; lia| |simpl in Hpage; lia].
    destruct (Nat.ltb_spec (length (d :: ds)) 200); [lia|].
    replace (200 * N.of_nat k + 200) with (200 * N.of_nat (S k)) by lia.
    rewrite (IH (acc ++ d :: ds) (S k)); [|done| | |simpl in Hfuel; lia].
    + rewrite after_after. do 2 f_equal.
      * rewrite <- app_assoc. f_equal.
      * simpl length. replace (S k + length pages)%nat
          with (k + S (length pages))%nat by lia. reflexivity.
    + intros i p Hi. destruct (Hnet (S i) p Hi) as (r' & Hr' & Hrest).
      exists r'. split; [|done].
      rewrite requests_after; simpl.
      replace (length (requests w) + 1 + i)%nat
        with (length (requests w) + S i)%nat by lia.
      replace (S (k + i)) with (k + S i)%nat by lia. done.
    + intros j Hj. specialize (Hdown j Hj).
      rewrite requests_after; simpl. simpl length in Hdown.
      replace (length (requests w) + 1 + length pages + j)%nat
        with (length (requests w) + S (length pages) + j)%nat by lia.
      replace (S (k + length pages)) with (k + S (length pages))%nat by lia.
      exact Hdown.
Qed.

(** X8. When some full pages have come in and the next page request fails
    three times, the fetch returns the pages it has, as if they were all:
    the result is cut short without any sign to the caller. *)
Theorem fetch_truncated_by_failure (pid : str) (pages : list (list doc))
        (w : world) (fuel : nat) :
  Forall (fun page => 200 <= length page)%nat pages ->
  (forall i page, pages !! i = Some page ->
     exists r, net (length (requests w) + i)
                   (ApiQuery pid (200 * N.of_nat i)) = Responds r
               /\ status_code r = 200%Z /\ page_records (json r) = page) ->
  (forall j, (j < 3)%nat ->
     retryable (net (length (requests w) + length pages + j)
                    (ApiQuery pid (200 * N.of_nat (length pages)))) = true) ->
  (length pages < fuel)%nat ->
  get_project_documents net fuel pid w =
  Some (concat pages,
        after w
          (paging_requests pid (length pages)
           ++ repeat (ApiQuery pid (200 * N.of_nat (length pages))) 3)
          backoff).
Proof.
  intros Hfull Hnet Hdown Hfuel. unfold get_project_documents.
  change 0 with (200 * N.of_nat 0).
  by rewrite (truncated_from pid pages [] 0%nat w fuel).
Qed.

End ClientMore.

Lemma fetch_only_queries_witness :
  exists reqs,
    reqs = [ApiQuery Examples.proid 0; ApiQuery Examples.proid 200;
            ApiQuery Examples.proid 400]
    /\ Forall (is_page_request Examples.proid) reqs.
Proof.
  destruct (fetch_only_queries Examples.three_pages 3 Examples.proid
              Examples.empty_world
              (after Examples.empty_world
                 [ApiQuery Examples.proid 0; ApiQuery Examples.proid 200;
                  ApiQuery Examples.proid 400] [])
              (concat [repeat Examples.sample_doc 200;
                       repeat Examples.sample_doc 200]
                 ++ repeat Examples.sample_doc 47))
    as [(reqs & Hreqs & Hall) _].
  { vm_compute; reflexivity. }
  exists reqs. split; [|exact Hall].
  simpl in Hreqs. symmetry. exact Hreqs.
Defined.

Lemma fetch_never_ends_witness :
  get_project_documents ClientExamples.full_pages 25 Examples.proid
    Examples.empty_world = None.
Proof.
  apply (fetch_never_ends ClientExamples.full_pages).
  intros i. eexists. split; [reflexivity|]. split; [reflexivity|].
  apply Nat.leb_le. vm_compute. reflexivity.
Defined.

Lemma fetch_truncated_by_failure_witness :
  get_project_documents ClientExamples.two_pages_then_down 3 Examples.proid
    Examples.empty_world
  = Some (concat [repeat Examples.sample_doc 200; repeat Examples.sample_doc 200],
          after Examples.empty_world
            ([ApiQuery Examples.proid 0; ApiQuery Examples.proid 200]
             ++ repeat (ApiQuery Examples.proid 400) 3) backoff).
Proof.
  apply (fetch_truncated_by_failure ClientExamples.two_pages_then_down
           Examples.proid
           [repeat Examples.sample_doc 200; repeat Examples.sample_doc 200]
           Examples.empty_world 3).
  - repeat constructor; rewrite repeat_length; lia.
  - intros [|[|i]] page Hpage; simpl in Hpage; inversion Hpage; subst;
      eexists; (split; [reflexivity|split; reflexivity]).
  - intros [|[|[|j]]] Hj; try reflexivity; lia.
  - simpl; lia.
Defined.

(** ** More on the selection policy *)

Section SelectionMore.
Context {U : Unicode}.
Variable self : downloader.

Lemma by_language_from_input (docs : list doc) (d : doc) :
  In d (select_documents_by_language self docs) -> In d docs.
Proof.
  unfold select_documents_by_language. destruct (str_eqb _ _); [done|].
  destruct (List.filter is_english docs) as [|e es] eqn:Heng.
  - destruct docs as [|first rest]; [done|]. intros [<-|[]]. by left.
  - rewrite <- Heng. by intros [? _]%filter_In.
Qed.

Lemma latest_from_input (docs : list doc) (d : doc) :
  In d (select_latest_documents self docs) -> In d docs.
Proof.
  unfold select_latest_documents. destruct (latest_only self); [|done].
  simpl negb. cbv iota.
  destruct (group_by_lang_grouped docs) as (_ & Hent & _).
  destruct (latest_of_groups_spec docs _ Hent) as [_ Hspec].
  intros (pre & post & -> & _)%Hspec. apply in_app_iff. right. by left.
Qed.

(** X9. Selection only picks: every document it returns is one of the
    documents it was given. *)
Theorem select_from_input (docs : list doc) (d : doc) :
  In d (select self docs) -> In d docs.
Proof.
  unfold select. destruct (latest_only self).
  - intros H%latest_from_input. by apply by_language_from_input.
  - apply by_language_from_input.
Qed.

Lemma filter_filter_id (f : doc -> bool) (l : list doc) :
  List.filter f (List.filter f l) = List.filter f l.
Proof.
  induction l as [|d l IH]; [done|]. simpl.
  destruct (f d) eqn:Hd; [|done]. simpl. by rewrite Hd, IH.
Qed.

(** X10. The language step is idempotent: applied to its own result it
    changes nothing. *)
Theorem select_documents_by_language_idempotent (docs : list doc) :
  select_documents_by_language self (select_documents_by_language self docs)
  = select_documents_by_language self docs.
Proof.
  unfold select_documents_by_language. destruct (str_eqb _ _); [done|].
  destruct (List.filter is_english docs) as [|e es] eqn:Heng.
  - destruct docs as [|first rest]; [done|].
    simpl in Heng. simpl. destruct (is_english first); [done|]. done.
  - rewrite <- Heng, filter_filter_id. rewrite Heng. done.
Qed.

Lemma english_lang_key (d : doc) :
  str_lower [] = [] -> is_english d = true -> lang_key d = u "en".
Proof.
  unfold is_english, lang_key, str_eqb. intros Hlower Hd.
  apply bool_decide_eq_true in Hd. destruct (lang d) as [l|]; [done|].
  simpl in Hd. by rewrite Hlower in Hd.
Qed.

(** Documents of one language make one group, hence one newest. *)
Lemma latest_of_one_language (l : list doc) (k : str) :
  l <> [] -> (forall x, In x l -> lang_key x = k) ->
  exists d, latest_of_groups (group_by_lang l) = [d] /\ In d l.
Proof.
  intros Hne Hkey.
  destruct (group_by_lang_grouped l) as (Hnd & Hent & Hcov).
  destruct (latest_of_groups_spec l _ Hent) as [Hkeys Hspec].
  assert (Hall : forall k', In k' (List.map fst (group_by_lang l)) -> k' = k).
  { intros k' ((k0 & ds) & <- & Hin)%in_map_iff. simpl.
    destruct (Hent _ _ Hin) as [Hds Heq].
    destruct ds as [|x ds]; [done|].
    assert (Hx : In x (List.filter (in_group k0) l))
      by (rewrite <- Heq; by left).
    apply filter_In in Hx as [Hx Hk0]. apply in_group_true in Hk0.
    rewrite <- Hk0. by apply Hkey. }
  assert (Hone : exists d, latest_of_groups (group_by_lang l) = [d]).
  { destruct (latest_of_groups (group_by_lang l)) as [|d [|d' rest]] eqn:Hl.
    - destruct l as [|x l]; [done|].
      pose proof (Hcov x (or_introl eq_refl)) as Hx.
      rewrite <- Hkeys in Hx. done.
    - by exists d.
    - rewrite <- Hkeys in Hnd, Hall. simpl in Hnd, Hall.
      apply NoDup_cons in Hnd as [Hnot _].
      rewrite (Hall (lang_key d)), <- (Hall (lang_key d')) in Hnot by auto.
      destruct Hnot. by left. }
  destruct Hone as [d Hd]. exists d. split; [done|].
  destruct (Hspec d) as (pre & post & -> & _); [rewrite Hd; by left|].
  apply in_app_iff. right. by left.
Qed.

(** X11. With languages other than "all" and [latest_only] on, a non-empty
    list of documents is reduced to exactly one of its documents. *)
Theorem select_english_latest_single (docs : list doc) :
  str_lower [] = [] ->
  languages self <> u "all" ->
  latest_only self = true ->
  docs <> [] ->
  exists d, select self docs = [d] /\ In d docs.
Proof.
  intros Hlower Hlang Hlatest Hne.
  unfold select, select_latest_documents. rewrite Hlatest. simpl negb.
  cbv iota.
  set (sel := select_documents_by_language self docs).
  assert (Hsel : sel <> [] /\ exists k, forall x, In x sel -> lang_key x = k).
  { unfold sel, select_documents_by_language, str_eqb.
    rewrite bool_decide_eq_false_2 by done.
    destruct (List.filter is_english docs) as [|e es] eqn:Heng.
    - destruct docs as [|first rest]; [done|]. split; [done|].
      exists (lang_key first). by intros x [<-|[]].
    - split; [done|]. exists (u "en"). intros x Hx. rewrite <- Heng in Hx.
      apply filter_In in Hx as [_ Hx]. by apply english_lang_key. }
  destruct Hsel as [Hsel_ne [k Hk]].
  destruct (latest_of_one_language sel k Hsel_ne Hk) as (d & Hd & Hin).
  exists d. split; [done|]. by apply by_language_from_input.
Qed.

End SelectionMore.

Lemma select_english_latest_single_witness :
  exists d,
    select (U := ascii_tables) SelectionExamples.latest_mode
      [SelectionExamples.english_2020; SelectionExamples.german;
       SelectionExamples.english_2021] = [d]
    /\ In d [SelectionExamples.english_2020; SelectionExamples.german;
             SelectionExamples.english_2021].
Proof.
  apply (select_english_latest_single (U := ascii_tables)
           SelectionExamples.latest_mode); [reflexivity|discriminate|
    reflexivity|discriminate].
Defined.

(** ** More on the downloader *)

Section DownloadMore.
Context {U : Unicode}.
Variable net : nat -> request -> get_outcome.
Variable self : downloader.

(** A download reported as [Downloaded] was a real transfer: one request,
    a non-empty file at the destination, and the hash of that file. *)
Lemma downloaded_inversion (url file_path : str) (w w1 : world)
      (ok : bool) (h : str) :
  download_pdf net self url file_path w = ((ok, Downloaded, h), w1) ->
  dry_run self = false /\ ok = true
  /\ files w !! file_path = None
  /\ exists r,
       net (length (requests w)) (FileGet url) = Responds r
       /\ concat (chunks r) <> []
       /\ w1 = write_file file_path (concat (chunks r))
                 (log_request (FileGet url) w)
       /\ h = SHA256.hexdigest (concat (chunks r)).
Proof.
  unfold download_pdf. destruct (dry_run self); [by intros [=]|].
  case_bool_decide as Hex; [by intros [=]|].
  cbn [session_get]. destruct (net _ _) as [|r] eqn:Hnet; [by intros [=]|].
  destruct (raise_for_status r); [by intros [=]|].
  destruct (stream_breaks r); [by intros [=]|].
  unfold get_file_hash.
  destruct (files (write_file _ _ _) !! _) as [[|b bs]|] eqn:Hfile;
    [by intros [=]| |by intros [=]].
  intros [= <- <- <-]. split; [done|]. split; [done|]. split.
  - destruct (files w !! file_path) eqn:Hold; [|done].
    destruct Hex. by eexists.
  - exists r. simpl in Hfile. rewrite lookup_insert_eq in Hfile.
    injection Hfile as Hfile. rewrite Hfile. by repeat split.
Qed.

(** X12. After a download reported as [downloaded] the destination holds
    the bytes received, which are not empty, the hash returned is their
    SHA-256, exactly one request was sent, and any later download for that
    destination, from whatever URL, is skipped with the same hash and
    without a request. *)
Theorem downloaded_then_skipped (url file_path : str) (w w1 : world)
        (ok : bool) (h : str) :
  download_pdf net self url file_path w = ((ok, Downloaded, h), w1) ->
  ok = true
  /\ requests w1 = requests w ++ [FileGet url]
  /\ (exists content,
        content <> [] /\ files w1 !! file_path = Some content
        /\ h = SHA256.hexdigest content)
  /\ forall url',
       download_pdf net self url' file_path w1
       = ((true, SkippedExisting, h), w1).
Proof.
  intros (Hdry & -> & _ & r & _ & Hne & -> & ->)%downloaded_inversion.
  split; [done|]. split; [done|].
  assert (Hfile : files (write_file file_path (concat (chunks r))
                           (log_request (FileGet url) w)) !! file_path
                  = Some (concat (chunks r)))
    by (simpl; apply lookup_insert_eq).
  split; [by exists (concat (chunks r))|].
  intros url'. by apply download_existing.
Qed.

(** X13. When the stream of a download breaks, the bytes received so far
    stay at the destination and the download is reported as failed; from
    then on every download for that destination is skipped as existing,
    with the hash of the partial file. *)
Theorem broken_stream_leaves_partial_file (url file_path : str) (w : world)
        (r : response) :
  dry_run self = false ->
  files w !! file_path = None ->
  net (length (requests w)) (FileGet url) = Responds r ->
  raise_for_status r = false ->
  stream_breaks r = true ->
  let w1 := write_file file_path (concat (chunks r))
              (log_request (FileGet url) w) in
  download_pdf net self url file_path w = ((false, Failed, []), w1)
  /\ files w1 !! file_path = Some (concat (chunks r))
  /\ forall url' w2,
       files w2 !! file_path = Some (concat (chunks r)) ->
       download_pdf net self url' file_path w2
       = ((true, SkippedExisting, SHA256.hexdigest (concat (chunks r))), w2).
Proof.
  intros Hdry Hnone Hnet Hstatus Hbreak w1.
  split; [|split].
  - unfold download_pdf. rewrite Hdry, Hnone.
    rewrite bool_decide_eq_false_2 by (intros [? ?]; discriminate).
    cbn [session_get]. by rewrite Hnet, Hstatus, Hbreak.
  - unfold w1; simpl. apply lookup_insert_eq.
  - intros url' w2 Hw2. by apply download_existing.
Qed.

(** X14. Two documents with the same storage path: once the first has
    been downloaded, the second is not fetched; its manifest row says
    [skipped_existing] and carries the path and the hash of the first
    one's file, next to its own URL. *)
Theorem same_path_second_is_skipped (d1 d2 : doc) (t : doc_type)
        (pid country name : str) (w w1 : world) (ok : bool) (h pdf_url : str) :
  _download_document net self d1 t pid country name w
  = ((ok, Downloaded, h), w1) ->
  _get_document_path self d2 t pid country name
  = _get_document_path self d1 t pid country name ->
  pdf_url_of d2 = Some pdf_url ->
  exists row,
    _download_document net self d2 t pid country name w1
    = ((true, SkippedExisting, h), append_manifest row w1)
    /\ row_saved_path row = _get_document_path self d1 t pid country name
    /\ row_status row = SkippedExisting
    /\ row_sha256 row = h
    /\ row_pdf_url row = pdf_url.
Proof.
  unfold _download_document at 1.
  destruct (pdf_url_of d1) as [url1|]; [|by intros [=]].
  destruct (download_pdf _ _ _ _ _) as [[[ok' st] h'] w0] eqn:Hdl.
  intros [= -> -> -> <-] Hpath Hurl.
  apply downloaded_inversion in Hdl as (Hdry & _ & _ & r & _ & _ & -> & ->).
  unfold _download_document. rewrite Hurl, Hpath.
  rewrite (download_existing net self pdf_url _ _ (concat (chunks r)) Hdry).
  - eexists. split; [reflexivity|]. by repeat split.
  - simpl. apply lookup_insert_eq.
Qed.

End DownloadMore.

Lemma downloaded_then_skipped_witness :
  download_pdf CollisionExamples.serves_files Examples.english_mode
    (u "http://elsewhere/other.pdf") DownloadExamples.stored_path
    (write_file DownloadExamples.stored_path DownloadExamples.pdf_bytes
       (log_request (FileGet DownloadExamples.file_url) Examples.empty_world))
  = ((true, SkippedExisting, SHA256.hexdigest DownloadExamples.pdf_bytes),
     write_file DownloadExamples.stored_path DownloadExamples.pdf_bytes
       (log_request (FileGet DownloadExamples.file_url) Examples.empty_world)).
Proof.
  destruct (downloaded_then_skipped CollisionExamples.serves_files
              Examples.english_mode DownloadExamples.file_url
              DownloadExamples.stored_path Examples.empty_world
              (write_file DownloadExamples.stored_path
                 DownloadExamples.pdf_bytes
                 (log_request (FileGet DownloadExamples.file_url)
                    Examples.empty_world))
              true (SHA256.hexdigest DownloadExamples.pdf_bytes))
    as (_ & _ & _ & Hagain).
  { vm_compute; reflexivity. }
  apply Hagain.
Defined.

Lemma broken_stream_leaves_partial_file_witness :
  download_pdf CollisionExamples.breaks_midway Examples.english_mode
    DownloadExamples.file_url DownloadExamples.stored_path Examples.empty_world
  = ((false, Failed, []),
     write_file DownloadExamples.stored_path DownloadExamples.pdf_bytes
       (log_request (FileGet DownloadExamples.file_url) Examples.empty_world)).
Proof.
  destruct (broken_stream_leaves_partial_file CollisionExamples.breaks_midway
              Examples.english_mode DownloadExamples.file_url
              DownloadExamples.stored_path Examples.empty_world
              (mkResponse 200 JsonEmpty [DownloadExamples.pdf_bytes] true)
              eq_refl eq_refl eq_refl eq_refl eq_refl)
    as (Hfail & _).
  exact Hfail.
Defined.

Lemma same_path_second_is_skipped_witness :
  exists row w1,
    _download_document (U := ascii_tables) CollisionExamples.serves_files
      Examples.english_mode (CollisionExamples.named "Water.supply") PID
      Examples.proid ProjectExamples.country ProjectExamples.title w1
    = ((true, SkippedExisting, SHA256.hexdigest DownloadExamples.pdf_bytes),
       append_manifest row w1)
    /\ row_status row = SkippedExisting.
Proof.
  destruct (_download_document (U := ascii_tables)
              CollisionExamples.serves_files Examples.english_mode
              (CollisionExamples.named "Watersupply") PID Examples.proid
              ProjectExamples.country ProjectExamples.title
              Examples.empty_world) as [res w1] eqn:Hfirst.
  assert (Hres : res = (true, Downloaded,
                        SHA256.hexdigest DownloadExamples.pdf_bytes)).
  { apply (f_equal fst) in Hfirst. simpl in Hfirst. rewrite <- Hfirst.
    vm_compute. reflexivity. }
  subst res.
  destruct (same_path_second_is_skipped (U := ascii_tables)
              CollisionExamples.serves_files Examples.english_mode
              (CollisionExamples.named "Watersupply")
              (CollisionExamples.named "Water.supply") PID Examples.proid
              ProjectExamples.country ProjectExamples.title
              Examples.empty_world w1 true
              (SHA256.hexdigest DownloadExamples.pdf_bytes)
              (u "http://x/doc.pdf") Hfirst)
    as (row & Hsecond & _ & Hstatus & _).
  { vm_compute; reflexivity. }
  { vm_compute; reflexivity. }
  exists row, w1. by split.
Defined.

(** ** What processing a project does to the world *)

Section ProjectEffects.
Context {U : Unicode}.
Variable net : nat -> request -> get_outcome.
Variable self : downloader.

Lemma download_pdf_frame (url file_path : str) (w : world) :
  let w' := snd (download_pdf net self url file_path w) in
  manifest_data w' = manifest_data w /\ stats w' = stats w
  /\ sleeps w' = sleeps w.
Proof.
  unfold download_pdf. destruct (dry_run self); [done|].
  case_bool_decide; [done|]. cbn [session_get].
  destruct (net _ _) as [|r]; [done|].
  destruct (raise_for_status r); [done|].
  destruct (stream_breaks r); [done|].
  by destruct (files (write_file _ _ _) !! _) as [[|]|].
Qed.

Lemma download_pdf_dry (url file_path : str) (w : world) :
  dry_run self = true ->
  download_pdf net self url file_path w = ((true, DryRun, []), w).
Proof. intros Hdry. unfold download_pdf. by rewrite Hdry. Qed.

(** One document: the counters are left alone; a manifest row is added
    exactly when a URL is found, and it records the path, the status and the
    hash. *)
Lemma download_document_effect (d : doc) (t : doc_type)
      (pid country name : str) (w : world) :
  let res := fst (_download_document net self d t pid country name w) in
  let w' := snd (_download_document net self d t pid country name w) in
  stats w' = stats w
  /\ exists rows,
       manifest_data w' = manifest_data w ++ rows
       /\ List.map row_saved_path rows
          = (if has_pdf_url d
             then [_get_document_path self d t pid country name] else [])
       /\ Forall (fun row => row_status row = snd (fst res)
                             /\ row_sha256 row = snd res) rows
       /\ (has_pdf_url d = false -> res = (false, Failed, []))
       /\ (dry_run self = true ->
           files w' = files w /\ requests w' = requests w
           /\ (has_pdf_url d = true -> res = (true, DryRun, []))).
Proof.
  unfold _download_document, has_pdf_url.
  destruct (pdf_url_of d) as [pdf_url|]; simpl.
  - pose proof (download_pdf_frame pdf_url
                  (_get_document_path self d t pid country name) w)
      as (Hman & Hstats & _).
    pose proof (download_pdf_dry pdf_url
                  (_get_document_path self d t pid country name) w) as Hdry.
    destruct (download_pdf _ _ _ _ _) as [[[ok st] h] w1]. simpl in *.
    split; [done|]. eexists [_]. rewrite Hman. split; [reflexivity|].
    split; [reflexivity|]. split; [by repeat constructor|]. split; [done|].
    intros Htrue. specialize (Hdry Htrue). by injection Hdry as -> -> -> ->.
  - split; [done|]. exists []. rewrite app_nil_r. by repeat split.
Qed.

Lemma count_download_counted (ok : bool) (st : status) (s : stats_t) :
  downloads_counted (count_download ok st s) = downloads_counted s + 1
  /\ total_projects (count_download ok st s) = total_projects s
  /\ projects_with_pid (count_download ok st s) = projects_with_pid s
  /\ projects_with_pad (count_download ok st s) = projects_with_pad s.
Proof.
  unfold downloads_counted, count_download.
  destruct ok, st; simpl; repeat split; lia.
Qed.

(** The download loop over the selected documents of one type. *)
Lemma download_selected_effect (selected : list doc) (t : doc_type)
      (pid country name : str) :
  forall w,
  let w' := snd (download_selected net self selected t pid country name w) in
  downloads_counted (stats w')
  = downloads_counted (stats w) + N.of_nat (length selected)
  /\ total_projects (stats w') = total_projects (stats w)
  /\ projects_with_pid (stats w') = projects_with_pid (stats w)
  /\ projects_with_pad (stats w') = projects_with_pad (stats w)
  /\ exists rows,
       manifest_data w' = manifest_data w ++ rows
       /\ List.map row_saved_path rows
          = List.map (fun d => _get_document_path self d t pid country name)
              (List.filter has_pdf_url selected)
       /\ (dry_run self = true ->
           files w' = files w /\ requests w' = requests w
           /\ Forall (fun row => row_status row = DryRun
                                 /\ row_sha256 row = []) rows
           /\ downloads_failed (stats w')
              = downloads_failed (stats w) + N.of_nat (length selected)
           /\ downloads_successful (stats w') = downloads_successful (stats w)
           /\ downloads_skipped (stats w') = downloads_skipped (stats w)).
Proof.
  induction selected as [|d rest IH]; intros w.
  - simpl. unfold downloads_counted. repeat split; try lia.
    exists []. rewrite app_nil_r. by repeat split; try lia.
  - cbn [download_selected].
    pose proof (download_document_effect d t pid country name w)
      as (Hstats & rows1 & Hrows1 & Hpaths1 & Hrow1 & Hnourl & Hdry1).
    destruct (_download_document _ _ _ _ _ _ _ _) as [[[ok st] h] w1].
    simpl in Hstats, Hrows1, Hrow1, Hnourl, Hdry1.
    specialize (IH (with_stats (count_download ok st) w1)).
    destruct (download_selected _ _ _ _ _ _ _ _) as [paths w2].
    simpl in IH |- *.
    destruct IH as (Hcount & Htotal & Hpid & Hpad & rows2 & Hrows2 & Hpaths2
                    & Hdry2).
    destruct (count_download_counted ok st (stats w1)) as (Hc & Ht & Hp & Hq).
    rewrite Hstats in *.
    split; [lia|]. split; [congruence|]. split; [congruence|].
    split; [congruence|].
    exists (rows1 ++ rows2). rewrite Hrows2, Hrows1, <- app_assoc.
    split; [done|]. split.
    + rewrite List.map_app, Hpaths1, Hpaths2.
      by destruct (has_pdf_url d).
    + intros Hdry. destruct (Hdry1 Hdry) as (Hf1 & Hr1 & Hres).
      destruct (Hdry2 Hdry) as (Hf2 & Hr2 & Hall2 & Hfail & Hsucc & Hskip).
      split; [congruence|]. split; [congruence|].
      assert (Hst : (ok, st, h) = (true, DryRun, [])
                    \/ (ok, st, h) = (false, Failed, [])).
      { destruct (has_pdf_url d); [left; by apply Hres|right; by apply Hnourl]. }
      split.
      { apply Forall_app. split; [|done].
        destruct (has_pdf_url d) eqn:Hurl.
        - specialize (Hres eq_refl). injection Hres as -> -> ->.
          eapply Forall_impl; [exact Hrow1|]. by simpl.
        - by destruct rows1. }
      destruct Hst as [[= -> -> ->]|[= -> -> ->]]; simpl in *;
        repeat split; lia.
Qed.

Lemma process_type_effect (fd : filtered) (t : doc_type)
      (pid country name : str) (w : world) :
  let w' := snd (process_type net self fd t pid country name w) in
  downloads_counted (stats w')
  = downloads_counted (stats w) + N.of_nat (length (select self (by_type fd t)))
  /\ total_projects (stats w') = total_projects (stats w)
  /\ projects_with_pid (stats w') = projects_with_pid (stats w)
  /\ projects_with_pad (stats w') = projects_with_pad (stats w)
  /\ exists rows,
       manifest_data w' = manifest_data w ++ rows
       /\ List.map row_saved_path rows
          = List.map (fun d => _get_document_path self d t pid country name)
              (List.filter has_pdf_url (select self (by_type fd t)))
       /\ (dry_run self = true ->
           files w' = files w /\ requests w' = requests w
           /\ Forall (fun row => row_status row = DryRun
                                 /\ row_sha256 row = []) rows
           /\ downloads_failed (stats w')
              = downloads_failed (stats w)
                + N.of_nat (length (select self (by_type fd t)))
           /\ downloads_successful (stats w') = downloads_successful (stats w)
           /\ downloads_skipped (stats w') = downloads_skipped (stats w)).
Proof.
  unfold process_type. destruct (by_type fd t) as [|d ds] eqn:Hdocs.
  - rewrite select_nil. simpl. unfold downloads_counted.
    repeat split; try lia. exists []. rewrite app_nil_r.
    by repeat split; try lia.
  - apply download_selected_effect.
Qed.

End ProjectEffects.

Section ProjectEffectTheorems.
Context {U : Unicode}.
Variable net : nat -> request -> get_outcome.
Variable self : downloader.

Lemma process_project_effect (fuel : nat) (pid country name : str)
      (w w1 : world) (docs : list doc) :
  get_project_documents net fuel pid w = Some (docs, w1) ->
  let sel_pid := select self (List.filter (is_type PID) docs) in
  let sel_pad := select self (List.filter (is_type PAD) docs) in
  exists s w',
    process_project net self fuel pid country name w = Some (s, w')
    /\ downloads_counted (stats w')
       = downloads_counted (stats w)
         + N.of_nat (length sel_pid + length sel_pad)
    /\ total_projects (stats w') = total_projects (stats w)
    /\ exists rows,
         manifest_data w' = manifest_data w ++ rows
         /\ List.map row_saved_path rows
            = List.map (fun d => _get_document_path self d PID pid country name)
                (List.filter has_pdf_url sel_pid)
              ++ List.map
                   (fun d => _get_document_path self d PAD pid country name)
                   (List.filter has_pdf_url sel_pad)
         /\ (dry_run self = true ->
             files w' = files w /\ requests w' = requests w1
             /\ Forall (fun row => row_status row = DryRun
                                   /\ row_sha256 row = []) rows
             /\ downloads_failed (stats w')
                = downloads_failed (stats w)
                  + N.of_nat (length sel_pid + length sel_pad)
             /\ downloads_successful (stats w')
                = downloads_successful (stats w)
             /\ downloads_skipped (stats w') = downloads_skipped (stats w)).
Proof.
  intros Hfetch sel_pid sel_pad.
  destruct (fetch_effect net pid fuel [] 0 w docs w1 Hfetch)
    as (reqs & delays & _ & Hw1 & _ & _).
  assert (Hstats1 : stats w1 = stats w) by (by rewrite Hw1).
  assert (Hman1 : manifest_data w1 = manifest_data w) by (by rewrite Hw1).
  assert (Hfiles1 : files w1 = files w) by (by rewrite Hw1).
  unfold process_project. rewrite Hfetch.
  destruct docs as [|d docs].
  - exists (_create_project_summary pid country name false false 0 0 [] []), w1.
    split; [done|]. unfold sel_pid, sel_pad. simpl List.filter.
    rewrite !select_nil. simpl. rewrite Hstats1, Hman1.
    split; [unfold downloads_counted; lia|]. split; [done|].
    exists []. rewrite app_nil_r. split; [done|]. split; [done|].
    intros _. repeat split; try done; lia.
  - pose proof (process_type_effect net self (filter_documents (d :: docs)) PID
                  pid country name w1)
      as (Hc2 & Ht2 & _ & _ & rows2 & Hr2 & Hp2 & Hdry2).
    destruct (process_type _ _ _ PID _ _ _ _) as [pid_paths w2].
    pose proof (process_type_effect net self (filter_documents (d :: docs)) PAD
                  pid country name w2)
      as (Hc3 & Ht3 & _ & _ & rows3 & Hr3 & Hp3 & Hdry3).
    destruct (process_type _ _ _ PAD _ _ _ _) as [pad_paths w3].
    rewrite !filter_documents_by_type in *.
    fold sel_pid in Hc2, Hp2, Hdry2. fold sel_pad in Hc3, Hp3, Hdry3.
    simpl in Hc2, Ht2, Hr2, Hdry2, Hc3, Ht3, Hr3, Hdry3.
    rewrite Hstats1 in Hc2, Ht2, Hdry2. rewrite Hman1 in Hr2.
    eexists _, _. split; [reflexivity|].
    cbn [stats manifest_data files requests with_stats].
    split.
    { unfold downloads_counted, count_types in *. simpl. lia. }
    split; [simpl; congruence|].
    exists (rows2 ++ rows3). split; [by rewrite Hr3, Hr2, app_assoc|].
    split; [by rewrite List.map_app, Hp2, Hp3|].
    intros Hdry.
    destruct (Hdry2 Hdry) as (Hf2 & Hq2 & Hall2 & Hfail2 & Hsucc2 & Hskip2).
    destruct (Hdry3 Hdry) as (Hf3 & Hq3 & Hall3 & Hfail3 & Hsucc3 & Hskip3).
    split; [congruence|]. split; [congruence|].
    split; [by apply Forall_app|].
    unfold count_types. simpl. repeat split; lia.
Qed.

(** X15. Every document selected for a project is counted once in the
    download counters, while the manifest gets a row only for the selected
    documents for which a URL is found: a document without one is counted
    (as failed) and leaves no row. *)
Theorem selected_documents_all_counted (fuel : nat) (pid country name : str)
        (w w1 : world) (docs : list doc) :
  get_project_documents net fuel pid w = Some (docs, w1) ->
  let sel_pid := select self (List.filter (is_type PID) docs) in
  let sel_pad := select self (List.filter (is_type PAD) docs) in
  exists s w',
    process_project net self fuel pid country name w = Some (s, w')
    /\ downloads_counted (stats w')
       = downloads_counted (stats w)
         + N.of_nat (length sel_pid + length sel_pad)
    /\ exists rows,
         manifest_data w' = manifest_data w ++ rows
         /\ List.map row_saved_path rows
            = List.map (fun d => _get_document_path self d PID pid country name)
                (List.filter has_pdf_url sel_pid)
              ++ List.map
                   (fun d => _get_document_path self d PAD pid country name)
                   (List.filter has_pdf_url sel_pad).
Proof.
  intros Hfetch sel_pid sel_pad.
  destruct (process_project_effect fuel pid country name w w1 docs Hfetch)
    as (s & w' & Hrun & Hcount & _ & rows & Hrows & Hpaths & _).
  exists s, w'. split; [done|]. split; [done|]. by exists rows.
Qed.

(** X16. In a dry run, processing a project writes no file and sends
    nothing but the page requests of the fetch; every manifest row it adds
    has status [dry_run] and an empty hash. *)
Theorem dry_run_touches_nothing (fuel : nat) (pid country name : str)
        (w w' : world) (s : project_summary) :
  dry_run self = true ->
  process_project net self fuel pid country name w = Some (s, w') ->
  files w' = files w
  /\ (exists reqs, requests w' = requests w ++ reqs
                   /\ Forall (is_page_request pid) reqs)
  /\ exists rows,
       manifest_data w' = manifest_data w ++ rows
       /\ Forall (fun row => row_status row = DryRun /\ row_sha256 row = [])
                 rows.
Proof.
  intros Hdry Hrun.
  destruct (get_project_documents net fuel pid w) as [[docs w1]|] eqn:Hfetch.
  2: { unfold process_project in Hrun. by rewrite Hfetch in Hrun. }
  destruct (process_project_effect fuel pid country name w w1 docs Hfetch)
    as (s0 & w0 & Hrun0 & _ & _ & rows & Hrows & _ & Hpure).
  rewrite Hrun in Hrun0. injection Hrun0 as <- <-.
  destruct (Hpure Hdry) as (Hfiles & Hreqs & Hall & _).
  split; [done|]. split; [|by exists rows].
  destruct (fetch_effect net pid fuel [] 0 w docs w1 Hfetch)
    as (reqs & delays & _ & -> & _ & Hpage).
  exists reqs. split; [by rewrite Hreqs|].
  eapply Forall_impl; [exact Hpage|]. simpl. intros q [i ->]. by exists i.
Qed.

(** X17. In a dry run every selected document is counted as a failed
    download: [downloads_failed] grows by the number of selected documents
    and the two other download counters stay as they are. *)
Theorem dry_run_counts_failures (fuel : nat) (pid country name : str)
        (w w1 : world) (docs : list doc) :
  dry_run self = true ->
  get_project_documents net fuel pid w = Some (docs, w1) ->
  exists s w',
    process_project net self fuel pid country name w = Some (s, w')
    /\ downloads_failed (stats w')
       = downloads_failed (stats w)
         + N.of_nat (length (select self (List.filter (is_type PID) docs))
                     + length (select self (List.filter (is_type PAD) docs)))
    /\ downloads_successful (stats w') = downloads_successful (stats w)
    /\ downloads_skipped (stats w') = downloads_skipped (stats w).
Proof.
  intros Hdry Hfetch.
  destruct (process_project_effect fuel pid country name w w1 docs Hfetch)
    as (s & w' & Hrun & _ & _ & rows & _ & _ & Hpure).
  destruct (Hpure Hdry) as (_ & _ & _ & Hfail & Hsucc & Hskip).
  by exists s, w'.
Qed.

End ProjectEffectTheorems.

Lemma selected_documents_all_counted_witness :
  match process_project (U := ascii_tables) EffectExamples.one_without_url
          Examples.english_mode 1 Examples.proid ProjectExamples.country
          ProjectExamples.title Examples.empty_world with
  | Some (s, w') =>
      downloads_counted (stats w') = 2 /\ length (manifest_data w') = 1%nat
  | None => False
  end.
Proof.
  destruct (selected_documents_all_counted (U := ascii_tables)
              EffectExamples.one_without_url Examples.english_mode 1%nat
              Examples.proid ProjectExamples.country ProjectExamples.title
              Examples.empty_world
              (after Examples.empty_world [ApiQuery Examples.proid 0] [])
              [ProjectExamples.pid_in "en"; EffectExamples.without_url])
    as (s & w' & -> & Hcount & rows & Hrows & Hpaths).
  { vm_compute; reflexivity. }
  split.
  - rewrite Hcount. vm_compute. reflexivity.
  - rewrite Hrows. apply (f_equal (@length _)) in Hpaths.
    rewrite List.length_map in Hpaths. simpl. rewrite Hpaths.
    vm_compute. reflexivity.
Defined.

Lemma dry_run_touches_nothing_witness :
  match process_project (U := ascii_tables) ProjectExamples.two_pids
          DownloadExamples.dry_mode 1 Examples.proid ProjectExamples.country
          ProjectExamples.title DownloadExamples.stored_world with
  | Some (s, w') => files w' = files DownloadExamples.stored_world
  | None => False
  end.
Proof.
  destruct (process_project (U := ascii_tables) ProjectExamples.two_pids
              DownloadExamples.dry_mode 1 Examples.proid
              ProjectExamples.country ProjectExamples.title
              DownloadExamples.stored_world) as [[s w']|] eqn:Hrun.
  - by destruct (dry_run_touches_nothing (U := ascii_tables)
                   ProjectExamples.two_pids DownloadExamples.dry_mode 1%nat
                   Examples.proid ProjectExamples.country
                   ProjectExamples.title DownloadExamples.stored_world w' s
                   eq_refl Hrun) as (Hfiles & _).
  - vm_compute in Hrun. discriminate Hrun.
Defined.

Lemma dry_run_counts_failures_witness :
  match process_project (U := ascii_tables) ProjectExamples.two_pids
          DownloadExamples.dry_mode 1 Examples.proid ProjectExamples.country
          ProjectExamples.title Examples.empty_world with
  | Some (s, w') =>
      downloads_failed (stats w') = 1 /\ downloads_successful (stats w') = 0
  | None => False
  end.
Proof.
  destruct (dry_run_counts_failures (U := ascii_tables)
              ProjectExamples.two_pids DownloadExamples.dry_mode 1%nat
              Examples.proid ProjectExamples.country ProjectExamples.title
              Examples.empty_world
              (after Examples.empty_world [ApiQuery Examples.proid 0] [])
              [ProjectExamples.pid_in "en"; ProjectExamples.pid_in "fr"]
              eq_refl)
    as (s & w' & -> & Hfail & Hsucc & _).
  { vm_compute; reflexivity. }
  rewrite Hfail, Hsucc. vm_compute. by split.
Defined.

(** ** File names and the project loop *)

Section NamesAndLoop.
Context {U : Unicode}.
Variable net : nat -> request -> get_outcome.
Variable self : downloader.

Lemma str_in_single (c : char) (s : str) :
  str_in [c] s = false -> ~ In c s.
Proof.
  induction s as [|x s IH]; simpl; [tauto|].
  intros [Hx Hs]%orb_false_elim. rewrite andb_true_r in Hx.
  apply N.eqb_neq in Hx. intros [->|Hin]; [done|]. by apply IH.
Qed.

Lemma split_head_cut (c : char) (s : str) :
  ~ In c (split_head c s)
  /\ exists rest, s = split_head c s ++ rest
                  /\ (rest = [] \/ exists after, rest = c :: after).
Proof.
  induction s as [|x s [IHnot (rest & IH & Hrest)]]; simpl.
  - split; [tauto|]. exists []. split; [done|by left].
  - destruct (N.eqb_spec x c) as [->|Hne].
    + split; [tauto|]. exists (c :: s). split; [done|]. right. by exists s.
    + split.
      * intros [->|Hin]; [done|]. by apply IHnot.
      * exists rest. split; [|done]. simpl. by rewrite <- IH.
Qed.

(** X18. The date used in a file name and in the manifest is the stored
    date cut before its first 'T': it has no 'T', the stored date is it
    followed by nothing or by a 'T' and the rest; it is the whole stored
    date if that has no 'T', and the placeholder if there is no date.
    Below: of "2016-05-12T00:00:00Z" the day "2016-05-12" is left, a date
    that starts with 'T' leaves nothing. *)
Theorem doc_date_before_time (d : doc) :
  ~ In 84 (doc_date d)
  /\ (exists rest,
        get (docdt d) (u "0000-00-00") = doc_date d ++ rest
        /\ (rest = [] \/ exists time, rest = 84 :: time))
  /\ (docdt d = None -> doc_date d = u "0000-00-00")
  /\ doc_date (SelectionCases.report "R1" "en" "2016-05-12T00:00:00Z")
     = u "2016-05-12"
  /\ doc_date (SelectionCases.report "R1" "en" "2016-05-12") = u "2016-05-12"
  /\ doc_date (SelectionCases.report "R1" "en" "T2016") = [].
Proof.
  split; [|split; [|split; [|by vm_compute]]].
  - unfold doc_date. destruct (str_in (u "T") _) eqn:HT.
    + apply split_head_cut.
    + by apply str_in_single.
  - unfold doc_date. destruct (str_in (u "T") _) eqn:HT.
    + apply split_head_cut.
    + exists []. split; [by rewrite app_nil_r|by left].
  - unfold doc_date. by intros ->.
Qed.

Lemma process_project_key (fuel : nat) (pid country name : str)
      (w w' : world) (s : project_summary) :
  process_project net self fuel pid country name w = Some (s, w') ->
  summary_key s = (pid, country, name)
  /\ total_projects (stats w') = total_projects (stats w).
Proof.
  intros Hrun.
  destruct (get_project_documents net fuel pid w) as [[docs w1]|] eqn:Hfetch.
  2: { unfold process_project in Hrun. by rewrite Hfetch in Hrun. }
  destruct (process_project_effect net self fuel pid country name
              w w1 docs Hfetch) as (s1 & w2 & Hrun1 & _ & Htotal & _).
  destruct (process_project_summary net self fuel pid country name
              w w1 docs Hfetch) as (w2' & Hsum).
  rewrite Hrun in Hrun1, Hsum. injection Hrun1 as <- <-.
  injection Hsum as -> _. by split.
Qed.

(** [run_projects] is the loop of [run] for a processing that raises
    nothing. *)
Lemma run_projects_guarded_returning (fuel : nat)
      (projects : list (str * str * str)) :
  forall w,
  run_projects_guarded (process_project_attempt net self fuel) projects w
  = match run_projects net self fuel projects w with
    | Some (summary_data, w') => Some (summary_data, [], w')
    | None => None
    end.
Proof.
  induction projects as [|[[pid country] name] rest IH]; intros w;
    [reflexivity|].
  cbn [run_projects run_projects_guarded]. destruct pid as [|c pid]; [apply IH|].
  unfold process_project_attempt.
  destruct (process_project net self fuel (c :: pid) country name w)
    as [[summary w1]|]; [|reflexivity].
  rewrite IH.
  by destruct (run_projects net self fuel rest (with_stats count_project w1))
    as [[more w2]|].
Qed.

(** X19. As long as the processing of no project raises, which is how
    [process_project] is modelled, the loop of [run] gives one summary row,
    in order, for each row of the project list that has an id, with that
    row's id, country and title; rows without an id are passed over, no
    project is noted as failed, and [total_projects] grows by the number of
    summary rows.  (For a processing that raises see
    [run_projects_guarded].) *)
Theorem run_projects_rows (fuel : nat) (projects : list (str * str * str)) :
  forall w summaries w',
  run_projects net self fuel projects w = Some (summaries, w') ->
  run_projects_guarded (process_project_attempt net self fuel) projects w
  = Some (summaries, [], w')
  /\ List.map summary_key summaries = List.filter has_id projects
  /\ total_projects (stats w')
     = total_projects (stats w) + N.of_nat (length summaries).
Proof.
  intros w summaries w' Hrun. split.
  { by rewrite run_projects_guarded_returning, Hrun. }
  revert w summaries w' Hrun.
  induction projects as [|[[pid country] name] rest IH]; intros w summaries w'.
  - intros [= <- <-]. simpl. split; [done|lia].
  - cbn [run_projects]. destruct pid as [|c pid].
    + intros Hrest. by apply IH.
    + destruct (process_project net self fuel (c :: pid) country name w)
        as [[s w2]|] eqn:Hrun; [|done].
      destruct (process_project_key _ _ _ _ _ _ _ Hrun) as [Hkey Htotal].
      destruct (run_projects net self fuel rest (with_stats count_project w2))
        as [[more w3]|] eqn:Hrest; [|done].
      intros [= <- <-]. destruct (IH _ _ _ Hrest) as [Hkeys Hcount].
      simpl in Hcount. split.
      * simpl. by rewrite Hkeys, Hkey.
      * simpl length. rewrite Hcount, Htotal. lia.
Qed.

End NamesAndLoop.

Lemma run_projects_rows_witness :
  match run_projects (U := ascii_tables) Examples.always_503
          Examples.english_mode 1
          [(Examples.proid, u "Kenya", u "Water"); ([], u "Peru", u "Roads")]
          Examples.empty_world with
  | Some (summaries, w') =>
      List.map summary_key summaries = [(Examples.proid, u "Kenya", u "Water")]
  | None => False
  end.
Proof.
  destruct (run_projects (U := ascii_tables) Examples.always_503
              Examples.english_mode 1
              [(Examples.proid, u "Kenya", u "Water"); ([], u "Peru", u "Roads")]
              Examples.empty_world) as [[summaries w']|] eqn:Hrun.
  - by destruct (run_projects_rows (U := ascii_tables) Examples.always_503
                   Examples.english_mode 1%nat _ _ _ _ Hrun) as (_ & Hkeys & _).
  - vm_compute in Hrun. discriminate Hrun.
Defined.

(** ** Projects whose processing raises *)

Section GuardedLoop.
Variable process : str -> str -> str -> world -> option (attempt * world).
Variable fails : str -> bool.

(** X25. The loop of [run] with its [try], for any processing that leaves
    [total_projects] alone, returns a summary that names its project and
    raises for the projects marked by [fails]: the rows with an id whose
    processing returns get one summary row each, in order; the ids of those
    whose processing raises are [failed_projects], in order, with no
    summary row and no count in [total_projects]; and [run] returns 1
    exactly when there is such a row. *)
Theorem failed_projects_have_no_row (projects : list (str * str * str)) :
  (forall pid country name w a w',
     process pid country name w = Some (a, w') ->
     total_projects (stats w') = total_projects (stats w)
     /\ match a with
        | Returned summary =>
            fails pid = false /\ summary_key summary = (pid, country, name)
        | Raised => fails pid = true
        end) ->
  forall w summaries failed w',
  run_projects_guarded process projects w = Some (summaries, failed, w') ->
  List.map summary_key summaries
  = List.filter (fun p => has_id p && negb (fails (id_of p))) projects
  /\ failed
     = List.map id_of
         (List.filter (fun p => has_id p && fails (id_of p)) projects)
  /\ total_projects (stats w')
     = total_projects (stats w) + N.of_nat (length summaries)
  /\ (exit_code failed = 1%Z
      <-> exists p, In p projects /\ has_id p = true
                    /\ fails (id_of p) = true).
Proof.
  intros Hprocess.
  assert (Hloop : forall w summaries failed w',
    run_projects_guarded process projects w = Some (summaries, failed, w') ->
    List.map summary_key summaries
    = List.filter (fun p => has_id p && negb (fails (id_of p))) projects
    /\ failed
       = List.map id_of
           (List.filter (fun p => has_id p && fails (id_of p)) projects)
    /\ total_projects (stats w')
       = total_projects (stats w) + N.of_nat (length summaries)).
  { induction projects as [|[[pid country] name] rest IH];
      intros w summaries failed w'.
    - intros [= <- <- <-]. simpl. repeat split; lia.
    - cbn [run_projects_guarded]. destruct pid as [|c pid].
      + intros Hrest. by apply IH.
      + destruct (process (c :: pid) country name w) as [[a w1]|] eqn:Hrun;
          [|done].
        destruct (Hprocess _ _ _ _ _ _ Hrun) as [Htotal Ha].
        cbn [List.filter has_id id_of fst andb].
        destruct a as [summary|].
        * destruct Ha as [Hfails Hkey]. rewrite Hfails. cbn [negb].
          destruct (run_projects_guarded process rest
                      (with_stats count_project w1))
            as [[[more failed1] w2]|] eqn:Hrest; [|done].
          intros [= <- <- <-].
          destruct (IH _ _ _ _ Hrest) as (Hkeys & Hfailed & Hcount).
          simpl in Hcount. split; [|split].
          -- simpl. by rewrite Hkeys, Hkey.
          -- exact Hfailed.
          -- simpl length. rewrite Hcount, Htotal. lia.
        * rewrite Ha. cbn [negb].
          destruct (run_projects_guarded process rest w1)
            as [[[more failed1] w2]|] eqn:Hrest; [|done].
          intros [= <- <- <-].
          destruct (IH _ _ _ _ Hrest) as (Hkeys & Hfailed & Hcount).
          split; [exact Hkeys|]. split.
          -- simpl. by rewrite Hfailed.
          -- rewrite Hcount, Htotal. lia. }
  intros w summaries failed w' Hrun.
  destruct (Hloop _ _ _ _ Hrun) as (Hkeys & Hfailed & Hcount).
  split; [exact Hkeys|]. split; [exact Hfailed|]. split; [exact Hcount|].
  rewrite Hfailed.
  set (bad := List.filter (fun p => has_id p && fails (id_of p)) projects).
  assert (Hbad : forall p, In p bad
                 <-> In p projects /\ has_id p = true
                     /\ fails (id_of p) = true).
  { intros p. unfold bad. rewrite filter_In, andb_true_iff. tauto. }
  destruct bad as [|p ps]; cbn [List.map exit_code]; split.
  - intros [=].
  - intros (p & Hp). apply Hbad in Hp. destruct Hp.
  - intros _. exists p. apply Hbad. by left.
  - reflexivity.
Qed.

End GuardedLoop.

(** Of a project that is processed and one whose processing raises, the
    first gets the only summary row, the second is the failed project, and
    the run returns 1. *)
Lemma failed_projects_have_no_row_witness :
  match run_projects_guarded
          (raising_for (u "P000001")
             (process_project_attempt (U := ascii_tables) Examples.always_503
                Examples.english_mode 1))
          [(Examples.proid, u "Kenya", u "Water");
           (u "P000001", u "Peru", u "Roads")]
          Examples.empty_world with
  | Some (summaries, failed, w') =>
      List.map summary_key summaries = [(Examples.proid, u "Kenya", u "Water")]
      /\ failed = [u "P000001"]
      /\ total_projects (stats w') = 1
      /\ exit_code failed = 1%Z
  | None => False
  end.
Proof.
  destruct (run_projects_guarded _ _ _) as [[[summaries failed] w']|] eqn:Hrun.
  - destruct (failed_projects_have_no_row
                (raising_for (u "P000001")
                   (process_project_attempt (U := ascii_tables)
                      Examples.always_503 Examples.english_mode 1))
                (fun pid => str_eqb pid (u "P000001"))
                [(Examples.proid, u "Kenya", u "Water");
                 (u "P000001", u "Peru", u "Roads")])
      with (w := Examples.empty_world) (summaries := summaries)
           (failed := failed) (w' := w')
      as (Hkeys & Hfailed & Hcount & Hexit).
    + intros pid country name w a w2. unfold raising_for.
      destruct (str_eqb pid (u "P000001")) eqn:Hbad.
      * by intros [= <- <-].
      * unfold process_project_attempt.
        destruct (process_project _ _ _ _ _ _ _) as [[s w3]|] eqn:Hp; [|done].
        intros [= <- <-].
        by destruct (process_project_key _ _ _ _ _ _ _ _ _ Hp).
    + exact Hrun.
    + split; [exact Hkeys|]. split; [exact Hfailed|].
      split; [|by rewrite Hfailed].
      rewrite Hcount. assert (length summaries = 1%nat) as ->; [|done].
      by rewrite <- (length_map summary_key), Hkeys.
  - vm_compute in Hrun. discriminate Hrun.
Defined.

(** ** The ledger and the run *)

Section LedgerFacts.
Context {U : Unicode}.
Variable net : nat -> request -> get_outcome.
Variable self : downloader.
Variable csv_line : list str -> bytes.

(** X20. The manifest accumulates: written first where there was none, it
    starts with the header line followed by the rows; written again, by a
    later run or by the same object, it keeps all it had and gets the new
    rows at its end, without a second header.  No other file changes. *)
Theorem manifest_accumulates (w w2 : world) :
  dry_run self = false ->
  files w !! manifest_path self = None ->
  files w2 !! manifest_path self
  = files (write_manifest self csv_line w) !! manifest_path self ->
  files (write_manifest self csv_line w2) !! manifest_path self
  = Some (csv_line manifest_fieldnames
          ++ csv_lines csv_line manifest_values (manifest_data w)
          ++ csv_lines csv_line manifest_values (manifest_data w2))
  /\ forall p, p <> manifest_path self ->
       files (write_manifest self csv_line w2) !! p = files w2 !! p.
Proof.
  intros Hdry Hnew Hsame. unfold write_manifest in *.
  rewrite Hdry in *. rewrite Hnew in Hsame. simpl in Hsame.
  rewrite lookup_insert_eq in Hsame. rewrite Hsame. simpl. split.
  - by rewrite lookup_insert_eq, <- app_assoc.
  - intros p Hp. by rewrite lookup_insert_ne.
Qed.

(** X21. The summary is rewritten: of two writes to the same place only
    the second one shows. *)
Theorem summary_is_overwritten (first second : list project_summary)
        (summary_path : option str) (w : world) :
  write_summary self csv_line second summary_path
    (write_summary self csv_line first summary_path w)
  = write_summary self csv_line second summary_path w.
Proof.
  unfold write_summary. destruct (dry_run self); [done|].
  unfold write_file. simpl. by rewrite insert_insert_eq.
Qed.

Lemma existsb_name (fieldnames : list str) (col : str) :
  existsb (fun name => str_eqb name col) fieldnames = true <-> In col fieldnames.
Proof.
  rewrite existsb_exists. unfold str_eqb. split.
  - intros (name & Hin & Heq). apply bool_decide_eq_true in Heq. by subst.
  - intros Hin. exists col. split; [done|]. by apply bool_decide_eq_true.
Qed.

(** X22. [run] returns 1 without sending a request, writing a file or
    changing anything when the project list could not be read, when it has
    no record, or when one of the three columns is not in its header. *)
Theorem run_rejects_bad_input (fuel : nat)
        (id_col country_col title_col : str) (summary_out : option str)
        (w : world) :
  run net self csv_line fuel None id_col country_col title_col summary_out w
  = Some (Exit 1, w)
  /\ (forall fieldnames records,
        Forall (fun r => r = []) records ->
        run net self csv_line fuel (Some (fieldnames, records))
          id_col country_col title_col summary_out w
        = Some (Exit 1, w))
  /\ (forall fieldnames records col,
        In col [id_col; country_col; title_col] ->
        ~ In col fieldnames ->
        run net self csv_line fuel (Some (fieldnames, records))
          id_col country_col title_col summary_out w
        = Some (Exit 1, w)).
Proof.
  split; [done|]. split.
  - intros fieldnames records Hempty. unfold run.
    replace (List.filter _ records) with (@nil (list str)); [done|].
    induction Hempty as [|r rs -> _ IH]; [done|]. simpl. exact IH.
  - intros fieldnames records col Hcol Hmissing. unfold run.
    destruct (List.filter _ records); [done|].
    assert (Hin : In col (List.filter
                   (fun col => negb (existsb (fun name => str_eqb name col)
                                       fieldnames))
                   [id_col; country_col; title_col])).
    { apply filter_In. split; [done|]. apply negb_true_iff.
      destruct (existsb _ fieldnames) eqn:Hex; [|done].
      by apply existsb_name in Hex. }
    by destruct (List.filter _ [id_col; country_col; title_col]).
Qed.

Lemma cell_from_empty_record (fieldnames : list str) (col : str) :
  forall found, found = None \/ found = Some None ->
  cell_from fieldnames [] col found = None
  \/ cell_from fieldnames [] col found = Some None.
Proof.
  induction fieldnames as [|name names IH]; intros found Hfound; [done|].
  simpl. apply IH. destruct (str_eqb name col); [by right|done].
Qed.

(** An empty record has no value in any column. *)
Lemma stripped_cell_empty_record (fieldnames : list str) (col : str) :
  stripped_cell fieldnames [] col = None.
Proof.
  unfold stripped_cell, cell.
  by destruct (cell_from_empty_record fieldnames col None (or_introl eq_refl))
    as [-> | ->].
Qed.

Lemma cell_from_in (fieldnames : list str) (record : list str) (col : str) :
  forall record found x,
  cell_from fieldnames record col found = Some x ->
  found = Some x \/ In col fieldnames.
Proof.
  induction fieldnames as [|name names IH]; intros rec found x; simpl;
    [by left|].
  unfold str_eqb. case_bool_decide as Hname.
  - intros _. right. by left.
  - intros [?|?]%IH; [by left|right; by right].
Qed.

Lemma stripped_cell_in (fieldnames : list str) (record : list str)
      (col v : str) :
  stripped_cell fieldnames record col = Some v -> In col fieldnames.
Proof.
  unfold stripped_cell, cell.
  destruct (cell_from fieldnames record col None) as [x|] eqn:Hcell; [|done].
  intros _. by destruct (cell_from_in fieldnames record col _ _ _ Hcell).
Qed.

Lemma record_gives_nonempty fieldnames id_col country_col title_col
      (record : list str) (project : str * str * str) :
  record_gives fieldnames id_col country_col title_col record project ->
  record <> [].
Proof.
  intros [Hid _] ->. by rewrite stripped_cell_empty_record in Hid.
Qed.

(** Records that all have their three values are processed like the
    projects they give; the loop then goes on with what follows. *)
Lemma run_rows_app (fuel : nat) fieldnames id_col country_col title_col
      (good : list (list str)) (projects : list (str * str * str)) :
  Forall2 (record_gives fieldnames id_col country_col title_col)
          good projects ->
  forall rest w,
  run_rows net self fuel fieldnames id_col country_col title_col
    (good ++ rest) w
  = match run_projects net self fuel projects w with
    | None => None
    | Some (summaries, w1) =>
        match run_rows net self fuel fieldnames id_col country_col title_col
                rest w1 with
        | None => None
        | Some (None, w') => Some (None, w')
        | Some (Some more, w') => Some (Some (summaries ++ more), w')
        end
    end.
Proof.
  induction 1 as [|record [[pid country] name] good projects
                   (Hid & Hcountry & Hname) _ IH]; intros rest w.
  - simpl. by destruct (run_rows _ _ _ _ _ _ _ _ _) as [[[?|] ?]|].
  - simpl in Hid, Hcountry, Hname.
    cbn [app run_rows run_projects]. rewrite Hid, Hcountry, Hname.
    destruct pid as [|c pid]; [apply IH|].
    destruct (process_project _ _ _ _ _ _ _) as [[summary w1]|]; [|done].
    rewrite IH.
    destruct (run_projects _ _ _ _ _) as [[summaries w2]|]; [|done].
    by destruct (run_rows _ _ _ _ _ _ _ _ _) as [[[?|] ?]|].
Qed.

Lemma filter_complete_records fieldnames id_col country_col title_col
      (good : list (list str)) (projects : list (str * str * str))
      (rest : list (list str)) :
  Forall2 (record_gives fieldnames id_col country_col title_col)
          good projects ->
  List.filter (fun r : list str => match r with [] => false | _ => true end)
    (good ++ rest)
  = good ++ List.filter
              (fun r : list str => match r with [] => false | _ => true end)
              rest.
Proof.
  induction 1 as [|record project good projects Hgives _ IH]; [done|].
  apply record_gives_nonempty in Hgives. simpl. rewrite IH.
  by destruct record.
Qed.

Lemma no_missing_cols (fieldnames : list str)
      (id_col country_col title_col : str) :
  In id_col fieldnames -> In country_col fieldnames ->
  In title_col fieldnames ->
  List.filter
    (fun col => negb (existsb (fun name => str_eqb name col) fieldnames))
    [id_col; country_col; title_col] = [].
Proof.
  intros H1%existsb_name H2%existsb_name H3%existsb_name. simpl.
  by rewrite H1, H2, H3.
Qed.

(** X23. Given a project list whose records all have a value in the three
    columns, [run] processes them as projects whose id, country and title
    are those values without the white space around them, then writes the
    manifest and the summary, and returns 0. *)
Theorem run_complete_list (fuel : nat) fieldnames
        (id_col country_col title_col : str) (summary_out : option str)
        (records : list (list str)) (projects : list (str * str * str))
        (w w1 : world) (summaries : list project_summary) :
  records <> [] ->
  Forall2 (record_gives fieldnames id_col country_col title_col)
          records projects ->
  run_projects net self fuel projects w = Some (summaries, w1) ->
  run net self csv_line fuel (Some (fieldnames, records))
    id_col country_col title_col summary_out w
  = Some (Exit 0,
          write_summary self csv_line summaries summary_out
            (write_manifest self csv_line w1)).
Proof.
  intros Hne Hgives Hrun.
  assert (Hcols : In id_col fieldnames /\ In country_col fieldnames
                  /\ In title_col fieldnames).
  { destruct Hgives as [|record project ? ? (Hid & Hcountry & Hname) _];
      [done|]. repeat split; eapply stripped_cell_in; eassumption. }
  destruct Hcols as (Hid & Hcountry & Htitle).
  pose proof (filter_complete_records _ _ _ _ _ _ [] Hgives) as Hfilter.
  rewrite !app_nil_r in Hfilter.
  pose proof (run_rows_app fuel _ _ _ _ _ _ Hgives [] w) as Hrows.
  rewrite app_nil_r, Hrun in Hrows. cbn [run_rows] in Hrows.
  rewrite app_nil_r in Hrows.
  unfold run. rewrite Hfilter.
  destruct records as [|record more] eqn:Hrecords; [done|].
  rewrite <- Hrecords in *.
  rewrite (no_missing_cols fieldnames id_col country_col title_col) by done.
  by rewrite Hrows.
Qed.

(** X24. A record that is too short to have a value in one of the three
    columns makes [run] end with an exception it does not catch: the
    projects before it have been processed, the records after it are not
    looked at, and neither the manifest nor the summary is written. *)
Theorem incomplete_record_aborts_run (fuel : nat) fieldnames
        (id_col country_col title_col : str) (summary_out : option str)
        (good : list (list str)) (projects : list (str * str * str))
        (bad : list str) (rest : list (list str))
        (w w1 : world) (summaries : list project_summary) :
  In id_col fieldnames -> In country_col fieldnames ->
  In title_col fieldnames ->
  Forall2 (record_gives fieldnames id_col country_col title_col)
          good projects ->
  bad <> [] ->
  record_incomplete fieldnames id_col country_col title_col bad ->
  run_projects net self fuel projects w = Some (summaries, w1) ->
  run net self csv_line fuel (Some (fieldnames, good ++ bad :: rest))
    id_col country_col title_col summary_out w
  = Some (Uncaught, w1).
Proof.
  intros Hid Hcountry Htitle Hgives Hbad Hincomplete Hrun.
  pose proof (filter_complete_records _ _ _ _ _ _ (bad :: rest) Hgives)
    as Hfilter.
  destruct bad as [|b bad]; [done|]. cbn [List.filter] in Hfilter.
  unfold run. rewrite Hfilter.
  destruct (good ++ (b :: bad) :: List.filter _ rest) eqn:Hall;
    [by destruct good|]. rewrite <- Hall.
  rewrite (no_missing_cols fieldnames id_col country_col title_col)
    by done.
  rewrite (run_rows_app fuel _ _ _ _ _ _ Hgives), Hrun.
  cbn [run_rows].
  destruct Hincomplete as [-> | [Hc | Ht]]; [done| |].
  - rewrite Hc. by destruct (stripped_cell _ _ id_col).
  - rewrite Ht. destruct (stripped_cell _ _ id_col); [|done].
    by destruct (stripped_cell _ _ country_col).
Qed.

End LedgerFacts.

Lemma manifest_accumulates_witness :
  files (write_manifest Examples.english_mode LedgerExamples.plain_csv_line
           (write_manifest Examples.english_mode LedgerExamples.plain_csv_line
              RunExamples.one_row_world))
  !! manifest_path Examples.english_mode
  = Some (LedgerExamples.plain_csv_line manifest_fieldnames
          ++ csv_lines LedgerExamples.plain_csv_line manifest_values
               [RunExamples.sample_row]
          ++ csv_lines LedgerExamples.plain_csv_line manifest_values
               [RunExamples.sample_row]).
Proof.
  destruct (manifest_accumulates Examples.english_mode
              LedgerExamples.plain_csv_line RunExamples.one_row_world
              (write_manifest Examples.english_mode
                 LedgerExamples.plain_csv_line RunExamples.one_row_world)
              eq_refl eq_refl eq_refl) as [Hfile _].
  exact Hfile.
Defined.

Lemma run_complete_list_witness :
  match run (U := ascii_tables) Examples.always_503 Examples.english_mode
          LedgerExamples.plain_csv_line 1
          (Some (LedgerExamples.header,
                 [LedgerExamples.complete_record;
                  LedgerExamples.blank_id_record]))
          RunExamples.id_col RunExamples.country_col RunExamples.title_col
          None Examples.empty_world with
  | Some (Exit code, w') =>
      code = 0%Z /\ is_Some (files w' !! manifest_path Examples.english_mode)
  | _ => False
  end.
Proof.
  destruct (run_projects (U := ascii_tables) Examples.always_503
              Examples.english_mode 1
              [(u "P149286", u "Kenya", u "Water"); ([], u "Peru", u "Roads")]
              Examples.empty_world) as [[summaries w1]|] eqn:Hrun.
  - rewrite (run_complete_list (U := ascii_tables) Examples.always_503
               Examples.english_mode LedgerExamples.plain_csv_line 1%nat
               LedgerExamples.header RunExamples.id_col
               RunExamples.country_col RunExamples.title_col None
               [LedgerExamples.complete_record; LedgerExamples.blank_id_record]
               [(u "P149286", u "Kenya", u "Water"); ([], u "Peru", u "Roads")]
               Examples.empty_world w1 summaries).
    + split; [reflexivity|]. vm_compute in Hrun. injection Hrun as <- <-.
      vm_compute. by eexists.
    + discriminate.
    + repeat constructor.
    + exact Hrun.
  - vm_compute in Hrun. discriminate Hrun.
Defined.

Lemma incomplete_record_aborts_run_witness :
  match run (U := ascii_tables) Examples.always_503 Examples.english_mode
          LedgerExamples.plain_csv_line 1
          (Some (LedgerExamples.header,
                 [LedgerExamples.complete_record; LedgerExamples.short_record;
                  LedgerExamples.complete_record]))
          RunExamples.id_col RunExamples.country_col RunExamples.title_col
          None Examples.empty_world with
  | Some (Uncaught, w') =>
      files w' !! manifest_path Examples.english_mode = None
      /\ length (requests w') = 3%nat
  | _ => False
  end.
Proof.
  destruct (run_projects (U := ascii_tables) Examples.always_503
              Examples.english_mode 1 [(u "P149286", u "Kenya", u "Water")]
              Examples.empty_world) as [[summaries w1]|] eqn:Hrun.
  - pose proof (incomplete_record_aborts_run (U := ascii_tables)
               Examples.always_503 Examples.english_mode
               LedgerExamples.plain_csv_line 1%nat LedgerExamples.header
               RunExamples.id_col RunExamples.country_col
               RunExamples.title_col None [LedgerExamples.complete_record]
               [(u "P149286", u "Kenya", u "Water")]
               LedgerExamples.short_record [LedgerExamples.complete_record]
               Examples.empty_world w1 summaries) as Haborts.
    cbn [app] in Haborts. rewrite Haborts.
    + vm_compute in Hrun. injection Hrun as <- <-. vm_compute. by split.
    + vm_compute; tauto.
    + vm_compute; tauto.
    + vm_compute; tauto.
    + repeat constructor.
    + discriminate.
    + right; left. reflexivity.
    + exact Hrun.
  - vm_compute in Hrun. discriminate Hrun.
Defined.

Lemma select_from_input_witness :
  In SelectionExamples.english_2021
     [SelectionExamples.english_2020; SelectionExamples.german;
      SelectionExamples.english_2021].
Proof.
  apply (select_from_input (U := ascii_tables) SelectionExamples.latest_mode).
  vm_compute. by left.
Defined.
